(** * FieldDataProcessor: a shallow embedding of [field_data_processor.py]

    The processor holds a configuration and a pandas [DataFrame]; its four
    stages ingest, rename, correct and enrich the table.  The embedding keeps
    the Python program's shape: every method is a computation over the
    instance and the world (the process-wide logger and the calls made to the
    collaborators of [data_ingestion]), and an exception leaves the state as
    the failing statement found it. *)

From Stdlib Require Import ZArith List String Ascii Bool Lia.
From stdpp Require Import base tactics option list strings gmap pretty.

Local Open Scope Z_scope.
Local Open Scope string_scope.
Local Open Scope list_scope.
Local Open Scope stdpp_scope.

(** ** Values *)

(** What a cell of a table, a column label or a dictionary key can be:
    Python's [None], an [int] and a [str].  On these, Python's [==] (and
    hashing) is structural equality.  A float has a cell only where pandas
    makes it of an integer (a column of integers with missing values, see
    [held_as_float64]): it is written as the integer of its value, and [NaN]
    as [CNull].  A float with a fractional part is outside the embedding. *)
Inductive cell : Type :=
| CNull
| CInt (z : Z)
| CStr (s : string).

#[global] Instance cell_eq_dec : EqDecision cell.
Proof. solve_decision. Defined.

#[global] Instance cell_inhabited : Inhabited cell := populate CNull.

(** [str(x)], as an f-string and pandas' suffixing format a value. *)
Definition str (c : cell) : string :=
  match c with
  | CNull => "None"
  | CInt z => pretty z
  | CStr s => s
  end.

(** A configuration value: a scalar, or a [dict] given by its items in
    insertion order. *)
Inductive pyval : Type :=
| PCell (c : cell)
| PDict (items : list (cell * cell)).

(** ** Exceptions and results *)

Inductive exn : Type :=
| KeyError (key : cell)
| IndexError
| AttributeError
| TypeError
| ValueError
| MergeError
| OtherError (kind : string).

Inductive result (A : Type) : Type :=
| Ok (a : A)
| Raise (e : exn).
Arguments Ok {A} a.
Arguments Raise {A} e.

#[global] Instance result_ret : MRet result := @Ok.
#[global] Instance result_bind : MBind result := λ A B f r,
  match r with
  | Ok a => f a
  | Raise e => Raise e
  end.

(** ** Python dictionaries *)

(** [d.get(k)] *)
Fixpoint dict_get (d : list (cell * cell)) (k : cell) : option cell :=
  match d with
  | [] => None
  | (k', v) :: d' => if decide (k' = k) then Some v else dict_get d' k
  end.

(** [d[k] = v]: an existing key keeps its place, a new one goes last. *)
Fixpoint dict_set (d : list (cell * cell)) (k v : cell) : list (cell * cell) :=
  match d with
  | [] => [(k, v)]
  | (k', v') :: d' =>
      if decide (k' = k) then (k', v) :: d' else (k', v') :: dict_set d' k v
  end.

(** A dictionary display [{k1: v1, k2: v2, ...}]: the items are stored left
    to right, so a repeated key keeps the last value. *)
Definition dict_display (items : list (cell * cell)) : list (cell * cell) :=
  fold_left (λ d kv, dict_set d kv.1 kv.2) items [].

(** [d.get(k, k)]: the value under the key, or the key itself. *)
Definition dict_get_default (d : list (cell * cell)) (k : cell) : cell :=
  default k (dict_get d k).

(** ** Data frames *)

(** A table: the column labels in order (pandas does not require them to be
    distinct) and the rows, each a list of cells in column order. *)
Record DataFrame : Type := mkDataFrame {
  columns : list cell;
  rows : list (list cell)
}.

(** [DataFrame.rename(columns=mapper)] with the default [errors='ignore']:
    every label that is a key of the mapper is replaced, every other label
    is kept, and a key that names no column is ignored. *)
Definition rename (mapper : list (cell * cell)) (d : DataFrame) : DataFrame :=
  {| columns := dict_get_default mapper <$> columns d; rows := rows d |}.

(** The positions of the columns labelled [key]. *)
Fixpoint positions_from (n : nat) (key : cell) (cols : list cell) : list nat :=
  match cols with
  | [] => []
  | c :: cols' =>
      if decide (c = key) then n :: positions_from (S n) key cols'
      else positions_from (S n) key cols'
  end.

Definition positions (key : cell) (cols : list cell) : list nat :=
  positions_from 0 key cols.

(** The cells of the column at position [j]. *)
Definition column_at (j : nat) (rs : list (list cell)) : list cell :=
  omap (λ r, r !! j) rs.

(** ** The swap's placeholder (lines 72-74)

    [while temp_name in self.df.columns: temp_name += "_"].  The loop runs
    at most once per column: [probe_temp_name] takes that bound as its fuel,
    and [probe_temp_name_spec] below shows that the bound never cuts the loop
    short. *)
Fixpoint probe_temp_name (fuel : nat) (cols : list cell) (temp_name : string)
  : string :=
  match fuel with
  | O => temp_name
  | S fuel' =>
      if decide (CStr temp_name ∈ cols)
      then probe_temp_name fuel' cols (temp_name +:+ "_")
      else temp_name
  end.

Definition temp_name_for_swap : string := "__temp_name_for_swap__".


(** ** Numeric columns: [Series.abs] (line 90)

    pandas holds a column whose cells are all integers of 64 bits as
    [int64], and numpy's [abs] on it wraps around: the absolute value of
    [-2^63] does not fit and comes back as [-2^63].  A column of such
    integers with missing values is held as [float64]: every integer is
    there as the float nearest to it, and [abs] is exact and keeps the
    missing values (so that such a column comes to hold [2^63], the
    absolute value of the least integer).  Any other column is a column of
    Python objects, on which [abs] is applied cell by cell: exact on an
    [int], a [TypeError] on a [str] or on [None]. *)

Definition int64_min : Z := - 2 ^ 63.
Definition int64_max : Z := 2 ^ 63 - 1.

Definition wrap_int64 (z : Z) : Z := (z + 2 ^ 63) mod 2 ^ 64 - 2 ^ 63.

Definition is_null (c : cell) : bool :=
  match c with CNull => true | _ => false end.

Definition is_int (c : cell) : bool :=
  match c with CInt _ => true | _ => false end.

Definition is_int64 (c : cell) : bool :=
  match c with
  | CInt z => ((int64_min <=? z) && (z <=? int64_max))%Z
  | _ => false
  end.

(** The integers a [float64] column is made of. *)
Definition is_float64_int (c : cell) : bool :=
  match c with
  | CInt z => ((int64_min <=? z) && (z <=? 2 ^ 63))%Z
  | _ => false
  end.

(** The value of the [float64] an integer of 64 bits is converted to: the
    integer itself up to [2^53], beyond that the nearest multiple of the
    power of two that leaves 53 significant bits, a tie going to the even
    one. *)
Definition float64_of_int (z : Z) : Z :=
  let a := Z.abs z in
  if (a <=? 2 ^ 53)%Z then z
  else
    let k := (Z.log2 a - 52)%Z in
    let q := (a / 2 ^ k)%Z in
    let r := (a mod 2 ^ k)%Z in
    let half := (2 ^ (k - 1))%Z in
    let q' := if ((half <? r) || ((r =? half) && Z.odd q))%Z
              then (q + 1)%Z else q in
    (Z.sgn z * (q' * 2 ^ k))%Z.

Definition to_float64 (c : cell) : cell :=
  match c with CInt z => CInt (float64_of_int z) | _ => c end.

(** How pandas holds the cells of a column.  [nulls_coming] tells that
    missing values are about to be written to the column, as a left join
    does for the rows without a match. *)
Definition held_as_int64 (cs : list cell) : bool := forallb is_int64 cs.

Definition held_as_float64 (nulls_coming : bool) (cs : list cell) : bool :=
  forallb (λ c, is_float64_int c || is_null c) cs
  && existsb is_int cs
  && (nulls_coming || existsb is_null cs).

Definition abs_int64 (c : cell) : cell :=
  match c with CInt z => CInt (wrap_int64 (Z.abs z)) | _ => c end.

Definition abs_float64 (c : cell) : cell :=
  match c with CInt z => CInt (Z.abs (float64_of_int z)) | _ => c end.

Definition abs_object (c : cell) : cell :=
  match c with CInt z => CInt (Z.abs z) | _ => c end.

(** [abs] of the column at position [j], written back in place. *)
Definition abs_column_at (j : nat) (rs : list (list cell))
  : result (list (list cell)) :=
  let cs := column_at j rs in
  if held_as_int64 cs then Ok (alter abs_int64 j <$> rs)
  else if held_as_float64 false cs then Ok (alter abs_float64 j <$> rs)
  else if forallb is_int cs then Ok (alter abs_object j <$> rs)
  else Raise TypeError.

(** [df[name].abs()] over every column that carries the label. *)
Fixpoint abs_columns_at (js : list nat) (rs : list (list cell))
  : result (list (list cell)) :=
  match js with
  | [] => Ok rs
  | j :: js' => rs' ← abs_column_at j rs; abs_columns_at js' rs'
  end.

(** ** [DataFrame.merge(right, on=key, how='left')] (line 100) *)

(** [Index.duplicated()]: a label is marked when it occurred before. *)
Fixpoint duplicated_from (seen l : list cell) : list bool :=
  match l with
  | [] => []
  | x :: l' => bool_decide (x ∈ seen) :: duplicated_from (x :: seen) l'
  end.

Definition duplicated (l : list cell) : list bool := duplicated_from [] l.

(** A label that the suffix made a repetition of an earlier one. *)
Definition suffix_duplicates (old new : list cell) : bool :=
  existsb (λ on : bool * bool, on.2 && negb on.1)
    (zip (duplicated old) (duplicated new)).

(** The labels of the result: a label found on both sides (the key's column
    of the right table apart, which is dropped) gets the suffix [_x] on the
    left and [_y] on the right; a repetition caused by that is refused. *)
Definition items_overlap_with_suffix (left right : list cell)
  : result (list cell * list cell) :=
  let to_rename := filter (λ c, c ∈ right) left in
  match to_rename with
  | [] => Ok (left, right)
  | _ =>
      let renamer (suffix : string) (x : cell) : cell :=
        if decide (x ∈ to_rename) then CStr (str x +:+ suffix) else x in
      let llabels := renamer "_x" <$> left in
      let rlabels := renamer "_y" <$> right in
      if suffix_duplicates left llabels || suffix_duplicates right rlabels
      then Raise MergeError
      else Ok (llabels, rlabels)
  end.

(** The rows of the right table whose key cell equals the one of [lrow]
    (missing keys match each other, as in pandas). *)
Definition matching_rows (i j : nat) (right_rows : list (list cell))
    (lrow : list cell) : list (list cell) :=
  filter (λ rrow, rrow !! j = lrow !! i) right_rows.

(** The right table as the result holds its cells: a column of integers of
    64 bits that has missing values, or receives them because a left row
    has no match, is a [float64] column, in which every integer is the
    float nearest to it.  The key's column is not part of the result. *)
Definition widen_row (nulls_coming : bool) (j : nat)
    (right_rows : list (list cell)) (rrow : list cell) : list cell :=
  imap (λ k c, if bool_decide (k ≠ j)
                  && held_as_float64 nulls_coming (column_at k right_rows)
               then to_float64 c else c) rrow.

Definition unmatched (i j : nat) (right_rows : list (list cell))
    (lrow : list cell) : bool :=
  bool_decide (matching_rows i j right_rows lrow = []).

Definition widened (i j : nat) (left_rows : list (list cell))
    (right : DataFrame) : DataFrame :=
  {| columns := columns right;
     rows := widen_row (existsb (unmatched i j (rows right)) left_rows) j
               (rows right) <$> rows right |}.

(** What a left row becomes: one row per match, in the right table's order,
    or the row itself filled with nulls when nothing matches. *)
Definition join_row (i j : nat) (right : DataFrame) (lrow : list cell)
  : list (list cell) :=
  match matching_rows i j (rows right) lrow with
  | [] => [lrow ++ replicate (length (columns right) - 1) CNull]
  | ms => (λ rrow, lrow ++ delete j rrow) <$> ms
  end.

Section Merge.

(** pandas refuses to join key columns of unrelated types (an integer
    column against a string one) with a [ValueError]; the rule it follows
    is a parameter here. *)
Variable merge_keys_compatible : list cell → list cell → bool.

(** The key's column is looked up in the right table first, then in the
    left one: a missing label is a [KeyError], a repeated one a
    [ValueError].  The result keeps the left rows in order.  (For a left
    table without rows pandas drops the left key column instead of the right
    one; only the order of the result's labels differs.) *)
Definition merge (left right : DataFrame) (key : cell) : result DataFrame :=
  match positions key (columns right) with
  | [] => Raise (KeyError key)
  | [j] =>
      match positions key (columns left) with
      | [] => Raise (KeyError key)
      | [i] =>
          if merge_keys_compatible (column_at i (rows left))
               (column_at j (rows right))
          then
            labels ← items_overlap_with_suffix (columns left)
                       (delete j (columns right));
            Ok {| columns := labels.1 ++ labels.2;
                  rows := rows left
                          ≫= join_row i j (widened i j (rows left) right) |}
          else Raise ValueError
      | _ => Raise ValueError
      end
  | _ => Raise ValueError
  end.

End Merge.


(** ** The logger and the world *)

Inductive LogLevel : Type := DEBUG | INFO.

(** The logger [logging.getLogger(__name__ + ".FieldDataProcessor")]: one
    object for the whole process, which every instance configures anew.
    [level = None] is Python's [NOTSET]; [handlers] counts the handlers. *)
Record Logger : Type := mkLogger {
  propagate : bool;
  disabled : bool;
  level : option LogLevel;
  handlers : nat
}.

(** What the processor asks of its surroundings, in the order it asks. *)
Inductive event : Type :=
| CallCreateDbEngine (db_path : pyval)
| CallQueryData (sql_query : pyval)
| CallReadFromWebCSV (url : pyval)
| CallLoggerInfo (msg : string).

Record World : Type := mkWorld {
  logger : Logger;
  trace : list event
}.

Definition emit (ev : event) (w : World) : World :=
  {| logger := logger w; trace := trace w ++ [ev] |}.

(** [str.upper()] on the letters of ASCII. *)
Definition upper_ascii (a : ascii) : ascii :=
  let n := nat_of_ascii a in
  if ((97 <=? n) && (n <=? 122))%nat then ascii_of_nat (n - 32) else a.

Fixpoint upper (s : string) : string :=
  match s with
  | EmptyString => EmptyString
  | String a s' => String (upper_ascii a) (upper s')
  end.

(** [initialize_logging] (lines 26-55). *)
Definition initialize_logging (logging_level : string) (lg : Logger) : Logger :=
  let lg := {| propagate := false; disabled := disabled lg;
               level := level lg; handlers := handlers lg |} in
  let set_up (log_level : LogLevel) : Logger :=
    {| propagate := propagate lg; disabled := disabled lg;
       level := Some log_level;
       handlers := match handlers lg with O => 1%nat | n => n end |} in
  if decide (upper logging_level = "DEBUG") then set_up DEBUG
  else if decide (upper logging_level = "INFO") then set_up INFO
  else if decide (upper logging_level = "NONE") then
    {| propagate := propagate lg; disabled := true;
       level := level lg; handlers := handlers lg |}
  else set_up INFO.

(** [config_params[key]] *)
Definition getitem (config_params : gmap string pyval) (key : string)
  : result pyval :=
  match config_params !! key with
  | Some v => Ok v
  | None => Raise (KeyError (CStr key))
  end.

(** The keys [__init__] reads, in the order it reads them. *)
Definition required_keys : list string :=
  ["db_path"; "sql_query"; "columns_to_rename"; "values_to_rename";
   "weather_mapping_csv"].

(** [list(d.keys())[0], list(d.values())[0]] (line 70): the first item of
    the dictionary. *)
Definition first_key_value (v : pyval) : result (cell * cell) :=
  match v with
  | PCell _ => Raise AttributeError
  | PDict [] => Raise IndexError
  | PDict (kv :: _) => Ok kv
  end.

(** ** The processor *)

(** The attributes of an instance; [self.logger] is the logger of the
    world. *)
Record Processor (Engine : Type) : Type := mkProcessor {
  config_params : gmap string pyval;
  db_path : pyval;
  sql_query : pyval;
  columns_to_rename : pyval;
  values_to_rename : pyval;
  weather_map_data : pyval;
  df : option DataFrame;
  engine : option Engine
}.
Arguments mkProcessor {Engine}.
Arguments config_params {Engine} p.
Arguments db_path {Engine} p.
Arguments sql_query {Engine} p.
Arguments columns_to_rename {Engine} p.
Arguments values_to_rename {Engine} p.
Arguments weather_map_data {Engine} p.
Arguments df {Engine} p.
Arguments engine {Engine} p.

Definition set_df {Engine : Type} (d : option DataFrame)
    (p : Processor Engine) : Processor Engine :=
  {| config_params := config_params p; db_path := db_path p;
     sql_query := sql_query p; columns_to_rename := columns_to_rename p;
     values_to_rename := values_to_rename p;
     weather_map_data := weather_map_data p; df := d; engine := engine p |}.

Definition set_engine {Engine : Type} (e : option Engine)
    (p : Processor Engine) : Processor Engine :=
  {| config_params := config_params p; db_path := db_path p;
     sql_query := sql_query p; columns_to_rename := columns_to_rename p;
     values_to_rename := values_to_rename p;
     weather_map_data := weather_map_data p; df := df p; engine := e |}.

Definition set_columns_to_rename {Engine : Type} (v : pyval)
    (p : Processor Engine) : Processor Engine :=
  {| config_params := config_params p; db_path := db_path p;
     sql_query := sql_query p; columns_to_rename := v;
     values_to_rename := values_to_rename p;
     weather_map_data := weather_map_data p; df := df p; engine := engine p |}.

(** ** A small farm survey

    The table, remap and weather mapping of the specification's scenario,
    and collaborators that hand them out. *)

Definition example_df : DataFrame :=
  {| columns := [CStr "Field_ID"; CStr "Crop_type"; CStr "Elevation";
                 CStr "Weather_station_ID"];
     rows := [[CInt 1; CStr "Corn"; CInt (-5); CStr "WS1"];
              [CInt 2; CStr "XYZ"; CInt 10; CStr "WS2"];
              [CInt 3; CStr "Corn"; CInt (-3); CStr "WS3"]] |}.

Definition example_weather_df : DataFrame :=
  {| columns := [CStr "Field_ID"; CStr "Weather_station"];
     rows := [[CInt 1; CStr "Station-A"]; [CInt 2; CStr "Station-B"]] |}.

Definition example_config : gmap string pyval :=
  list_to_map
    [("db_path", PCell (CStr "sqlite:///farm_survey.db"));
     ("sql_query", PCell (CStr "SELECT * FROM farm_survey"));
     ("columns_to_rename", PDict [(CStr "Crop_type", CStr "Elevation")]);
     ("values_to_rename", PDict [(CStr "XYZ", CStr "Wheat")]);
     ("weather_mapping_csv", PCell (CStr "https://example.org/weather.csv"))].

Definition example_logger : Logger :=
  {| propagate := true; disabled := false; level := None; handlers := 0 |}.

Definition example_world : World :=
  {| logger := example_logger; trace := [] |}.

(** A processor whose engine is a token, after a successful Ingest. *)
Definition example_processor : Processor unit :=
  {| config_params := example_config;
     db_path := PCell (CStr "sqlite:///farm_survey.db");
     sql_query := PCell (CStr "SELECT * FROM farm_survey");
     columns_to_rename := PDict [(CStr "Crop_type", CStr "Elevation")];
     values_to_rename := PDict [(CStr "XYZ", CStr "Wheat")];
     weather_map_data := PCell (CStr "https://example.org/weather.csv");
     df := Some example_df;
     engine := Some tt |}.

Definition example_create_db_engine (db_path : pyval) : result unit := Ok tt.

Definition example_query_data (e : unit) (sql_query : pyval)
  : result DataFrame := Ok example_df.

Definition example_read_from_web_CSV (url : pyval) : result DataFrame :=
  Ok example_weather_df.

Definition example_keys_compatible (lk rk : list cell) : bool := true.

(** The survey as its source mislabels it: the elevations stand under
    [Crop_type] and the crops under [Elevation]. *)
Definition mislabelled_df : DataFrame :=
  {| columns := [CStr "Field_ID"; CStr "Crop_type"; CStr "Elevation";
                 CStr "Weather_station_ID"];
     rows := [[CInt 1; CInt (-5); CStr "Corn"; CStr "WS1"];
              [CInt 2; CInt 10; CStr "XYZ"; CStr "WS2"];
              [CInt 3; CInt (-3); CStr "Corn"; CStr "WS3"]] |}.

Definition mislabelled_query_data (e : unit) (sql_query : pyval)
  : result DataFrame := Ok mislabelled_df.

(** A weather mapping that lists field 1 twice. *)
Definition repeated_weather_df : DataFrame :=
  {| columns := [CStr "Field_ID"; CStr "Weather_station"];
     rows := [[CInt 1; CStr "Station-A"]; [CInt 1; CStr "Station-B"]] |}.

Definition repeated_read_from_web_CSV (url : pyval) : result DataFrame :=
  Ok repeated_weather_df.


(** A table with a missing elevation, and an elevation that no [float64]
    holds. *)
Definition gapped_df : DataFrame :=
  {| columns := [CStr "Crop_type"; CStr "Elevation"];
     rows := [[CStr "Corn"; CInt (-5)];
              [CStr "XYZ"; CNull];
              [CStr "Corn"; CInt (-9007199254740993)]] |}.

(** A weather mapping that numbers its stations. *)
Definition numbered_weather_df : DataFrame :=
  {| columns := [CStr "Field_ID"; CStr "Station_no"];
     rows := [[CInt 1; CInt 10]; [CInt 2; CInt 9007199254740993]] |}.

(** A table without the join key. *)
Definition keyless_df : DataFrame :=
  {| columns := [CStr "Crop_type"; CStr "Elevation"];
     rows := [[CStr "Corn"; CInt 7]] |}.

(** A database that cannot be reached. *)
Definition unreachable_create_db_engine (db_path : pyval) : result unit :=
  Raise (OtherError "ConnectionError").

Section FieldDataProcessor.

(** The collaborators of [data_ingestion], which the repository imports:
    the engine handle, [create_db_engine], [query_data] and
    [read_from_web_CSV], each either returning or raising. *)
Variable Engine : Type.
Variable create_db_engine : pyval → result Engine.
Variable query_data : Engine → pyval → result DataFrame.
Variable read_from_web_CSV : pyval → result DataFrame.
Variable merge_keys_compatible : list cell → list cell → bool.

(** The table [read_from_web_CSV] returns is parsed from a CSV text: its
    labels are the fields of the header, which the CSV reader of pandas
    keeps distinct (a repeated field is renamed). *)
Hypothesis read_from_web_CSV_header :
  ∀ url wm, read_from_web_CSV url = Ok wm → NoDup (columns wm).

(** *** Methods as computations

    A method runs on the instance and the world and returns or raises;
    either way it hands back the state it reached. *)
Definition State : Type := Processor Engine * World.

Definition M (A : Type) : Type := State → result A * State.

#[local] Instance M_ret : MRet M := λ A a s, (Ok a, s).
#[local] Instance M_bind : MBind M := λ A B f m s,
  match m s with
  | (Ok a, s') => f a s'
  | (Raise e, s') => (Raise e, s')
  end.

Definition get_self : M (Processor Engine) := λ s, (Ok s.1, s).
Definition modify_self (f : Processor Engine → Processor Engine) : M unit :=
  λ s, (Ok tt, (f s.1, s.2)).
Definition lift {A} (r : result A) : M A := λ s, (r, s).
Definition raise {A} (e : exn) : M A := lift (Raise e).

(** A call to a collaborator: it is made, then it returns or raises. *)
Definition call {A} (ev : event) (r : result A) : M A :=
  λ s, (r, (s.1, emit ev s.2)).

Definition logger_info (msg : string) : M unit :=
  call (CallLoggerInfo msg) (Ok tt).

(** [self.df], for a statement that raises [e] when it is [None]. *)
Definition get_df (e : exn) : M DataFrame :=
  p ← get_self;
  match df p with
  | Some d => mret d
  | None => raise e
  end.

(** *** [__init__] (lines 6-24) *)
Definition __init__ (config : gmap string pyval) (logging_level : string)
    (w : World) : result (Processor Engine) * World :=
  match
    db ← getitem config "db_path";
    sql ← getitem config "sql_query";
    ctr ← getitem config "columns_to_rename";
    vtr ← getitem config "values_to_rename";
    wmd ← getitem config "weather_mapping_csv";
    Ok {| config_params := config; db_path := db; sql_query := sql;
          columns_to_rename := ctr; values_to_rename := vtr;
          weather_map_data := wmd; df := None; engine := None |}
  with
  | Ok p =>
      (Ok p, {| logger := initialize_logging logging_level (logger w);
                trace := trace w |})
  | Raise e => (Raise e, w)
  end.

(** *** [ingest_sql_data] (lines 57-64) *)
Definition ingest_sql_data : M DataFrame :=
  p ← get_self;
  e ← call (CallCreateDbEngine (db_path p)) (create_db_engine (db_path p));
  modify_self (set_engine (Some e));;
  d ← call (CallQueryData (sql_query p)) (query_data e (sql_query p));
  modify_self (set_df (Some d));;
  logger_info "Successfully loaded data.";;
  mret d.

(** *** [rename_columns] (lines 66-80) *)
Definition rename_columns : M unit :=
  p ← get_self;
  kv ← lift (first_key_value (columns_to_rename p));
  let column1 := kv.1 in
  let column2 := kv.2 in
  d ← get_df AttributeError;
  let temp_name :=
    CStr (probe_temp_name (length (columns d)) (columns d) temp_name_for_swap) in
  modify_self
    (set_df (Some (rename (dict_display [(column1, temp_name);
                                         (column2, column1)]) d)));;
  d' ← get_df AttributeError;
  modify_self (set_df (Some (rename (dict_display [(temp_name, column2)]) d')));;
  logger_info ("Swapped columns: " +:+ str column1 +:+ " with " +:+ str column2).

(** *** [apply_corrections] (lines 82-92) *)

(** Line 90: [self.df[abs_column] = self.df[abs_column].abs()]. *)
Definition abs_step (abs_column : cell) : M unit :=
  d ← get_df TypeError;
  match positions abs_column (columns d) with
  | [] => raise (KeyError abs_column)
  | js =>
      rs ← lift (abs_columns_at js (rows d));
      modify_self (set_df (Some {| columns := columns d; rows := rs |}))
  end.

(** Line 91: [self.df[column_name] = self.df[column_name].apply(lambda crop:
    self.values_to_rename.get(crop, crop))].  The lambda runs once per row;
    when the label is repeated, pandas hands it whole columns, which a
    dictionary cannot hash.  On a table without rows the lambda decides
    nothing: the table is left as it is. *)
Definition remap_step (column_name : cell) : M unit :=
  p ← get_self;
  d ← get_df TypeError;
  match positions column_name (columns d) with
  | [] => raise (KeyError column_name)
  | [j] =>
      match values_to_rename p with
      | PDict table =>
          modify_self (set_df (Some
            {| columns := columns d;
               rows := alter (dict_get_default table) j <$> rows d |}))
      | PCell _ =>
          match rows d with
          | [] => mret tt
          | _ => raise AttributeError
          end
      end
  | _ =>
      match rows d with
      | [] => mret tt
      | _ =>
          match values_to_rename p with
          | PDict _ => raise TypeError
          | PCell _ => raise AttributeError
          end
      end
  end.

Definition apply_corrections (column_name abs_column : cell) : M unit :=
  abs_step abs_column;;
  remap_step column_name.

(** *** [weather_station_mapping] (lines 94-101) *)
Definition weather_station_mapping : M unit :=
  p ← get_self;
  weather_mapping_df ←
    call (CallReadFromWebCSV (weather_map_data p))
      (read_from_web_CSV (weather_map_data p));
  d ← get_df AttributeError;
  let d' := rename [(CStr "Weather_station_ID", CStr "Weather_station")] d in
  modify_self (set_df (Some d'));;
  merged ← lift (merge merge_keys_compatible d' weather_mapping_df
                   (CStr "Field_ID"));
  modify_self (set_df (Some merged)).

(** *** [process] (lines 103-111) *)
Definition process : M unit :=
  ingest_sql_data;;
  rename_columns;;
  apply_corrections (CStr "Crop_type") (CStr "Elevation");;
  weather_station_mapping.

(** ** Vocabulary of the properties *)

(** [k] marker characters. *)
Fixpoint underscores (k : nat) : string :=
  match k with
  | O => ""
  | S k' => String "_" (underscores k')
  end.

(** The exchange of two labels. *)
Definition swap_label (a b c : cell) : cell :=
  if decide (c = a) then b else if decide (c = b) then a else c.

(** The two mappers of lines 76 and 77. *)
Definition first_mapper (column1 column2 temp_name : cell) : list (cell * cell) :=
  dict_display [(column1, temp_name); (column2, column1)].

Definition second_mapper (column2 temp_name : cell) : list (cell * cell) :=
  dict_display [(temp_name, column2)].

(** What the two renames of [rename_columns] leave of a table. *)
Definition swapped (column1 column2 : cell) (d : DataFrame) : DataFrame :=
  let temp_name :=
    CStr (probe_temp_name (length (columns d)) (columns d) temp_name_for_swap) in
  rename (second_mapper column2 temp_name)
    (rename (first_mapper column1 column2 temp_name) d).

Definition swapped_message (column1 column2 : cell) : string :=
  "Swapped columns: " +:+ str column1 +:+ " with " +:+ str column2.

(** What [abs] does to a cell of a column it accepts. *)
Definition abs_in (cs : list cell) : cell → cell :=
  if held_as_int64 cs then abs_int64
  else if held_as_float64 false cs then abs_float64
  else abs_object.

(** The columns [abs] accepts. *)
Definition abs_accepts (cs : list cell) : bool :=
  held_as_int64 cs || held_as_float64 false cs || forallb is_int cs.

(** The table after line 99. *)
Definition station_renamed (d : DataFrame) : DataFrame :=
  rename [(CStr "Weather_station_ID", CStr "Weather_station")] d.

(** The configuration a stage reads is the one the instance was built
    with. *)
Definition same_config (p p' : Processor Engine) : Prop :=
  db_path p' = db_path p
  ∧ sql_query p' = sql_query p
  ∧ columns_to_rename p' = columns_to_rename p
  ∧ values_to_rename p' = values_to_rename p
  ∧ weather_map_data p' = weather_map_data p.

(** What a run of the whole pipeline asks of its surroundings. *)
Definition pipeline_events (p : Processor Engine) : list event :=
  [CallCreateDbEngine (db_path p); CallQueryData (sql_query p);
   CallLoggerInfo "Successfully loaded data."]
  ++ match first_key_value (columns_to_rename p) with
     | Ok kv =>
         [CallLoggerInfo (swapped_message kv.1 kv.2);
          CallReadFromWebCSV (weather_map_data p)]
     | Raise _ => []
     end.

(** [w'] is [w] after the events [evs]. *)
Definition after_events (w : World) (evs : list event) (w' : World) : Prop :=
  logger w' = logger w ∧ trace w' = trace w ++ evs.

(** The placeholder [rename_columns] settles on for a table. *)
Definition placeholder (d : DataFrame) : cell :=
  CStr (probe_temp_name (length (columns d)) (columns d) temp_name_for_swap).

(** The last character of a string. *)
Fixpoint last_ascii (s : string) : option ascii :=
  match s with
  | EmptyString => None
  | String a s' =>
      match s' with
      | EmptyString => Some a
      | String _ _ => last_ascii s'
      end
  end.

Ltac run_method :=
  unfold get_df, mbind, M_bind, get_self, lift, raise, lift, modify_self,
    logger_info, call, mret, M_ret, emit, after_events, same_config;
  simpl.

(** * Properties *)

(** ** Strings and the placeholder loop *)

Lemma string_app_cons (a : ascii) (s1 s2 : string) :
  String a s1 +:+ s2 = String a (s1 +:+ s2).
Proof. reflexivity. Qed.

Lemma string_app_assoc (s1 s2 s3 : string) :
  (s1 +:+ s2) +:+ s3 = s1 +:+ (s2 +:+ s3).
Proof.
  induction s1 as [|a s1 IH]; [done|].
  by rewrite !string_app_cons, IH.
Qed.

Lemma string_length_app (s1 s2 : string) :
  String.length (s1 +:+ s2) = (String.length s1 + String.length s2)%nat.
Proof.
  induction s1 as [|a s1 IH]; [done|].
  rewrite string_app_cons. simpl. by rewrite IH.
Qed.

Lemma underscores_length (k : nat) : String.length (underscores k) = k.
Proof. induction k as [|k IH]; simpl; [done | by rewrite IH]. Qed.

Lemma candidate_inj (t : string) (j k : nat) :
  t +:+ underscores j = t +:+ underscores k → j = k.
Proof.
  intros H. apply (f_equal String.length) in H.
  rewrite !string_length_app, !underscores_length in H. lia.
Qed.

Lemma candidate_next (t : string) (k : nat) :
  (t +:+ "_") +:+ underscores k = t +:+ underscores (S k).
Proof. by rewrite string_app_assoc. Qed.

Lemma string_app_empty_r (s : string) : s +:+ "" = s.
Proof.
  induction s as [|a s IH]; [done|]. by rewrite string_app_cons, IH.
Qed.

(** The loop with fuel: it stops at the first candidate that is no column, or
    has tried [fuel] candidates that all are columns. *)
Lemma probe_temp_name_run (fuel : nat) (cols : list cell) (t : string) :
  ∃ k : nat,
    (k ≤ fuel)%nat
    ∧ probe_temp_name fuel cols t = t +:+ underscores k
    ∧ (∀ j, (j < k)%nat → CStr (t +:+ underscores j) ∈ cols)
    ∧ ((k < fuel)%nat → CStr (t +:+ underscores k) ∉ cols).
Proof.
  revert t. induction fuel as [|fuel IH]; intros t; simpl.
  - exists 0%nat. change (underscores 0) with "".
    rewrite string_app_empty_r. repeat split; lia.
  - destruct (decide (CStr t ∈ cols)) as [Hin|Hout].
    + destruct (IH (t +:+ "_")) as (k & Hk & Hres & Hbelow & Hstop).
      exists (S k). rewrite <- candidate_next. repeat split; [lia | done | |].
      * intros [|j] Hj.
        -- change (underscores 0) with "". by rewrite string_app_empty_r.
        -- rewrite <- candidate_next. apply Hbelow. lia.
      * intros Hlt. apply Hstop. lia.
    + exists 0%nat. change (underscores 0) with "".
      rewrite string_app_empty_r.
      repeat split; [lia | lia | done].
Qed.

(** As many distinct candidates as there are columns leave no room for one
    more among the columns. *)
Lemma candidates_exhaust (cols : list cell) (t : string) :
  (∀ j, (j < length cols)%nat → CStr (t +:+ underscores j) ∈ cols) →
  CStr (t +:+ underscores (length cols)) ∉ cols.
Proof.
  intros Hall Hin.
  set (cand := λ j : nat, CStr (t +:+ underscores j)).
  assert (Hinj : Inj (=) (=) cand).
  { intros j k Hjk. injection Hjk as Hjk. by apply candidate_inj in Hjk. }
  assert (Hnd : NoDup (cand <$> seq 0 (S (length cols)))).
  { apply (NoDup_fmap_2 cand), NoDup_seq. }
  assert (Hsub : ∀ x, x ∈ cand <$> seq 0 (S (length cols)) → x ∈ cols).
  { intros x (j & -> & Hj)%list_elem_of_fmap. apply elem_of_seq in Hj.
    destruct (decide (j = length cols)) as [->|Hne]; [done|].
    apply Hall. lia. }
  pose proof (submseteq_length _ _ (NoDup_submseteq _ _ Hnd Hsub)) as Hlen.
  rewrite length_fmap, length_seq in Hlen. lia.
Qed.

(** The bound of one step per column never cuts the loop short: the name
    returned is the first candidate that labels no column. *)
Lemma probe_temp_name_spec (cols : list cell) (t : string) :
  ∃ k : nat,
    probe_temp_name (length cols) cols t = t +:+ underscores k
    ∧ (∀ j, (j < k)%nat → CStr (t +:+ underscores j) ∈ cols)
    ∧ CStr (t +:+ underscores k) ∉ cols.
Proof.
  destruct (probe_temp_name_run (length cols) cols t)
    as (k & Hk & Hres & Hbelow & Hstop).
  exists k. repeat split; [done..|].
  destruct (decide (k = length cols)) as [->|Hne].
  - by apply candidates_exhaust.
  - apply Hstop. lia.
Qed.

Lemma probe_temp_name_fresh (cols : list cell) (t : string) :
  CStr (probe_temp_name (length cols) cols t) ∉ cols.
Proof.
  destruct (probe_temp_name_spec cols t) as (k & -> & _ & Hfresh). done.
Qed.

(** ** Renaming labels *)

Lemma first_mapper_get (a b t c : cell) :
  dict_get_default (first_mapper a b t) c
  = if decide (c = b) then a else if decide (c = a) then t else c.
Proof.
  unfold first_mapper, dict_display, dict_get_default. simpl.
  repeat (case_decide; simpl; simplify_eq); done.
Qed.

Lemma second_mapper_get (b t c : cell) :
  dict_get_default (second_mapper b t) c = if decide (c = t) then b else c.
Proof.
  unfold second_mapper, dict_display, dict_get_default. simpl.
  repeat (case_decide; simpl; simplify_eq); done.
Qed.

(** Through a placeholder that is not the label itself, the two renames
    exchange [a] and [b]. *)
Lemma swap_via_temp (a b t c : cell) :
  c ≠ t → (a = t → c ≠ b) →
  dict_get_default (second_mapper b t) (dict_get_default (first_mapper a b t) c)
  = swap_label a b c.
Proof.
  intros Hc Hat. rewrite first_mapper_get, second_mapper_get. unfold swap_label.
  repeat (case_decide; simplify_eq); try done.
  by destruct Hat.
Qed.

Lemma swap_label_involutive (a b c : cell) :
  swap_label a b (swap_label a b c) = c.
Proof. unfold swap_label. repeat (case_decide; simplify_eq); done. Qed.

Lemma swap_label_elem (a b : cell) (cols : list cell) :
  a ∈ cols → b ∈ cols →
  a ∈ swap_label a b <$> cols ∧ b ∈ swap_label a b <$> cols.
Proof.
  intros Ha Hb. split; apply list_elem_of_fmap.
  - exists b. split; [|done]. unfold swap_label.
    repeat (case_decide; simplify_eq); done.
  - exists a. split; [|done]. unfold swap_label.
    repeat (case_decide; simplify_eq); done.
Qed.

(** [rename_columns] on a loaded table, with a mapping that has an item:
    it returns. *)
Lemma rename_columns_run (p : Processor Engine) (w : World) (d : DataFrame)
    (a b : cell) (rest : list (cell * cell)) :
  df p = Some d →
  columns_to_rename p = PDict ((a, b) :: rest) →
  rename_columns (p, w)
  = (Ok tt, (set_df (Some (swapped a b d)) p,
             emit (CallLoggerInfo (swapped_message a b)) w)).
Proof.
  intros Hdf Hctr.
  unfold rename_columns, get_df, mbind, M_bind, get_self, lift, modify_self,
    logger_info, call, mret, M_ret.
  simpl. rewrite Hctr. simpl. rewrite Hdf. simpl. reflexivity.
Qed.

Lemma swapped_columns_lookup (a b : cell) (d : DataFrame) (i : nat) :
  columns (swapped a b d) !! i
  = (λ c, dict_get_default
            (second_mapper b (CStr (probe_temp_name (length (columns d))
                                      (columns d) temp_name_for_swap)))
            (dict_get_default
               (first_mapper a b (CStr (probe_temp_name (length (columns d))
                                          (columns d) temp_name_for_swap))) c))
    <$> columns d !! i.
Proof.
  unfold swapped, rename. simpl. rewrite !list_lookup_fmap.
  by destruct (columns d !! i).
Qed.

(** When the first name is a column, or the second is none, the labels are
    exchanged. *)
Lemma swapped_columns (a b : cell) (d : DataFrame) :
  a ∈ columns d ∨ b ∉ columns d →
  columns (swapped a b d) = swap_label a b <$> columns d.
Proof.
  intros Hab. apply list_eq. intros i.
  rewrite swapped_columns_lookup, list_lookup_fmap.
  destruct (columns d !! i) as [c|] eqn:Hi; [|done]. simpl. f_equal.
  pose proof (probe_temp_name_fresh (columns d) temp_name_for_swap) as Hfresh.
  assert (Hc : c ∈ columns d) by (by eapply list_elem_of_lookup_2).
  apply swap_via_temp.
  - intros ->. done.
  - intros -> ->. destruct Hab as [Ha|Hb]; done.
Qed.

(** ** The Rename stage *)

(** C2 (amended): [rename_columns] does not fail when a configured name is
    absent from the columns.  On a loaded table, with a rename mapping that
    has an item, it returns; the rows and every column named neither of the
    two configured names are as before, and when both names are absent the
    table is unchanged. *)
Theorem rename_columns_absent_names_ignored (p : Processor Engine) (w : World)
    (d : DataFrame) (a b : cell) (rest : list (cell * cell)) :
  df p = Some d →
  columns_to_rename p = PDict ((a, b) :: rest) →
  ∃ (p' : Processor Engine) (w' : World) (d' : DataFrame),
    rename_columns (p, w) = (Ok tt, (p', w'))
    ∧ df p' = Some d'
    ∧ rows d' = rows d
    ∧ length (columns d') = length (columns d)
    ∧ (∀ i c, columns d !! i = Some c → c ≠ a → c ≠ b →
         columns d' !! i = Some c)
    ∧ (a ∉ columns d → b ∉ columns d → d' = d).
Proof.
  intros Hdf Hctr. eexists _, _, (swapped a b d).
  split; [by eapply rename_columns_run|].
  assert (Hother : ∀ i c, columns d !! i = Some c → c ≠ a → c ≠ b →
            columns (swapped a b d) !! i = Some c).
  { intros i c Hi Ha Hb. rewrite swapped_columns_lookup, Hi. simpl. f_equal.
    rewrite first_mapper_get, second_mapper_get.
    pose proof (probe_temp_name_fresh (columns d) temp_name_for_swap) as Hfresh.
    assert (Hc : c ∈ columns d) by (by eapply list_elem_of_lookup_2).
    repeat (case_decide; simplify_eq); done. }
  split; [done|]. split; [done|]. split; [|split; [done|]].
  - unfold swapped, rename. simpl. by rewrite !length_fmap.
  - intros Ha Hb. destruct d as [cols rs].
    unfold swapped, rename in *. simpl in *. f_equal.
    apply list_eq. intros i. rewrite !list_lookup_fmap.
    destruct (cols !! i) as [c|] eqn:Hi; [|done].
    specialize (Hother i c Hi). rewrite !list_lookup_fmap, Hi in Hother.
    apply Hother; intros ->; by eapply list_elem_of_lookup_2 in Hi.
Qed.

(** C3: on a table that has both configured columns, [rename_columns]
    applied twice gives the table back. *)
Theorem rename_columns_involution (p : Processor Engine) (w : World)
    (d : DataFrame) (a b : cell) (rest : list (cell * cell)) :
  df p = Some d →
  columns_to_rename p = PDict ((a, b) :: rest) →
  a ∈ columns d → b ∈ columns d →
  ∃ (p1 p2 : Processor Engine) (w1 w2 : World),
    rename_columns (p, w) = (Ok tt, (p1, w1))
    ∧ rename_columns (p1, w1) = (Ok tt, (p2, w2))
    ∧ df p2 = Some d.
Proof.
  intros Hdf Hctr Ha Hb.
  eexists _, _, _, _. split; [by eapply rename_columns_run|].
  split; [by eapply (rename_columns_run _ _ (swapped a b d))|].
  simpl. f_equal.
  assert (Hcols : columns (swapped a b d) = swap_label a b <$> columns d)
    by (apply swapped_columns; by left).
  assert (Hcols' : columns (swapped a b (swapped a b d)) = columns d).
  { rewrite swapped_columns.
    - rewrite Hcols, <- list_fmap_compose. rewrite <- (list_fmap_id (columns d)) at 2.
      apply list_fmap_ext. intros i c _. apply swap_label_involutive.
    - left. rewrite Hcols. by apply swap_label_elem. }
  destruct d as [cols rs]. unfold swapped, rename in *. simpl in *.
  by f_equal.
Qed.

(** C4: on a table that has both configured columns, [rename_columns]
    exchanges the two names through a placeholder that labels no column:
    every column labelled with the first name is labelled with the second
    afterwards and conversely, every other label and every row is as
    before. *)
Theorem rename_columns_swaps_names (p : Processor Engine) (w : World)
    (d : DataFrame) (a b : cell) (rest : list (cell * cell)) :
  df p = Some d →
  columns_to_rename p = PDict ((a, b) :: rest) →
  a ∈ columns d → b ∈ columns d →
  ∃ (temp_name : cell) (w' : World) (d' : DataFrame),
    (temp_name ∉ columns d)
    ∧ rename_columns (p, w) = (Ok tt, (set_df (Some d') p, w'))
    ∧ d' = rename (dict_display [(temp_name, b)])
             (rename (dict_display [(a, temp_name); (b, a)]) d)
    ∧ rows d' = rows d
    ∧ length (columns d') = length (columns d)
    ∧ ∀ i c, columns d !! i = Some c →
        columns d' !! i
        = Some (if decide (c = a) then b else if decide (c = b) then a else c).
Proof.
  intros Hdf Hctr Ha Hb.
  exists (CStr (probe_temp_name (length (columns d)) (columns d)
                  temp_name_for_swap)).
  eexists _, (swapped a b d).
  split; [apply probe_temp_name_fresh|].
  split; [by eapply rename_columns_run|].
  split; [done|]. split; [done|].
  rewrite swapped_columns by (by left). split.
  - by rewrite length_fmap.
  - intros i c Hi. by rewrite list_lookup_fmap, Hi.
Qed.


(** ** The Correct stage *)

Lemma elem_of_positions_from (n : nat) (key : cell) (cols : list cell) (j : nat) :
  j ∈ positions_from n key cols
  ↔ ∃ k : nat, j = (n + k)%nat ∧ cols !! k = Some key.
Proof.
  revert n. induction cols as [|c cols IH]; intros n; simpl.
  - split; [by intros ?%elem_of_nil | by intros (k & _ & ?)].
  - destruct (decide (c = key)) as [->|Hne].
    + rewrite elem_of_cons, IH. split.
      * intros [->|(k & -> & Hk)]; [exists 0%nat | exists (S k)];
          (split; [lia | done]).
      * intros ([|k] & -> & Hk); [left; lia | right; exists k].
        split; [lia | done].
    + rewrite IH. split.
      * intros (k & -> & Hk). exists (S k). split; [lia | done].
      * intros ([|k] & -> & Hk); simpl in Hk; [congruence|].
        exists k. split; [lia | done].
Qed.

Lemma elem_of_positions (key : cell) (cols : list cell) (j : nat) :
  j ∈ positions key cols ↔ cols !! j = Some key.
Proof.
  unfold positions. rewrite elem_of_positions_from.
  split; [by intros (k & -> & Hk) | intros Hj; by exists j].
Qed.

(** The positions of a label are distinct. *)
Lemma positions_from_NoDup_list (n : nat) (key : cell) (cols : list cell) :
  NoDup (positions_from n key cols).
Proof.
  revert n. induction cols as [|c cols IH]; intros n; simpl; [constructor|].
  destruct (decide (c = key)); [|apply IH].
  constructor; [|apply IH].
  intros (k & Hk & _)%elem_of_positions_from. lia.
Qed.

Lemma positions_NoDup (key : cell) (cols : list cell) :
  NoDup (positions key cols).
Proof. apply positions_from_NoDup_list. Qed.


(** Writing to one column leaves the cells of another. *)
Lemma column_at_alter_ne (f : cell → cell) (j j0 : nat) (rs : list (list cell)) :
  j ≠ j0 → column_at j (alter f j0 <$> rs) = column_at j rs.
Proof.
  intros Hne. unfold column_at. induction rs as [|r rs IH]; [done|].
  rewrite fmap_cons.
  change (omap ?g (?x :: ?l))
    with (match g x with Some y => y :: omap g l | None => omap g l end).
  by rewrite IH, list_lookup_alter_ne by done.
Qed.


(** Beyond [2^53] the float keeps 53 significant bits of the integer, and
    is no farther from it than half a unit of the last of them. *)
Lemma float64_of_int_nearest (z : Z) :
  (2 ^ 53 < Z.abs z)%Z →
  ∃ q : Z,
    (2 ^ 52 ≤ q ≤ 2 ^ 53)%Z
    ∧ Z.abs (float64_of_int z) = (q * 2 ^ (Z.log2 (Z.abs z) - 52))%Z
    ∧ (2 * Z.abs (Z.abs (float64_of_int z) - Z.abs z)
       ≤ 2 ^ (Z.log2 (Z.abs z) - 52))%Z.
Proof.
  intros Hbig.
  assert (Hone : Z.abs (Z.sgn z) = 1%Z) by (destruct z; [lia | done | done]).
  unfold float64_of_int.
  destruct (Z.leb_spec (Z.abs z) (2 ^ 53)) as [?|_]; [lia|].
  set (a := Z.abs z) in *.
  assert (Hl : (53 ≤ Z.log2 a)%Z).
  { change 53%Z with (Z.log2 (2 ^ 53)). apply Z.log2_le_mono. lia. }
  destruct (Z.log2_spec a) as [Hlo Hhi]; [lia|].
  set (k := (Z.log2 a - 52)%Z) in *.
  assert (Hk : (1 ≤ k)%Z) by lia.
  assert (Hpk : (0 < 2 ^ k)%Z) by (apply Z.pow_pos_nonneg; lia).
  assert (Hsplit : (2 ^ Z.log2 a = 2 ^ 52 * 2 ^ k)%Z).
  { rewrite <- Z.pow_add_r by lia. f_equal. lia. }
  assert (Hsucc : (2 ^ Z.succ (Z.log2 a) = 2 ^ 53 * 2 ^ k)%Z).
  { rewrite <- Z.pow_add_r by lia. f_equal. lia. }
  assert (Hhalf : (2 ^ k = 2 * 2 ^ (k - 1))%Z).
  { rewrite <- (Z.pow_succ_r 2 (k - 1)) by lia. f_equal. lia. }
  pose proof (Z.div_mod a (2 ^ k) ltac:(lia)) as Hdm.
  pose proof (Z.mod_pos_bound a (2 ^ k) Hpk) as Hr.
  set (q := (a / 2 ^ k)%Z) in *. set (r := (a mod 2 ^ k)%Z) in *.
  set (half := (2 ^ (k - 1))%Z) in *.
  assert (Hq : (2 ^ 52 ≤ q < 2 ^ 53)%Z) by nia.
  assert (Hsgn : ∀ m : Z, (0 ≤ m)%Z → Z.abs (Z.sgn z * m) = m).
  { intros m Hm. rewrite Z.abs_mul, Hone. lia. }
  destruct ((half <? r)%Z || ((r =? half)%Z && Z.odd q)) eqn:Hup.
  - assert (half ≤ r)%Z.
    { apply orb_prop in Hup as [Hlt|[Heq _]%andb_prop]; lia. }
    exists (q + 1)%Z. rewrite Hsgn by nia. split; [lia|]. split; [done|]. nia.
  - assert (r ≤ half)%Z.
    { apply orb_false_elim in Hup as [Hlt _]. lia. }
    exists q. rewrite Hsgn by nia. split; [lia|]. split; [done|]. nia.
Qed.

(** One column after [abs]. *)
Lemma abs_column_at_spec (j : nat) (rs rs' : list (list cell)) :
  abs_column_at j rs = Ok rs' →
  abs_accepts (column_at j rs) = true
  ∧ rs' = alter (abs_in (column_at j rs)) j <$> rs.
Proof.
  unfold abs_column_at, abs_accepts, abs_in.
  destruct (held_as_int64 (column_at j rs)); [by intros [= <-]|].
  destruct (held_as_float64 false (column_at j rs)); [by intros [= <-]|].
  destruct (forallb is_int (column_at j rs)); [by intros [= <-]|done].
Qed.

(** The rows after [abs] of the columns [js]: each of these columns was
    accepted, a cell of one of them went through [abs] as its column has it,
    and every other cell is as before. *)
Lemma abs_columns_at_spec (js : list nat) (rs rs' : list (list cell)) :
  NoDup js →
  abs_columns_at js rs = Ok rs' →
  length rs' = length rs
  ∧ (∀ j, j ∈ js → abs_accepts (column_at j rs) = true)
  ∧ ∀ i r, rs !! i = Some r →
      ∃ r', rs' !! i = Some r'
        ∧ length r' = length r
        ∧ ∀ j c, r !! j = Some c →
            r' !! j = Some (if decide (j ∈ js)
                            then abs_in (column_at j rs) c else c).
Proof.
  intros Hnd. revert rs.
  induction Hnd as [|j0 js Hj0 Hnd IH]; intros rs; simpl.
  - intros [= <-]. split; [done|]. split; [by intros j ?%elem_of_nil|].
    intros i r Hi. exists r. split; [done|]. split; [done|].
    by intros j c Hc.
  - destruct (abs_column_at j0 rs) as [rs1|e] eqn:H1; simpl; [|done].
    intros Hrest. apply abs_column_at_spec in H1 as [Hacc ->].
    destruct (IH _ Hrest) as (Hlen & Haccs & Hrows). split.
    { by rewrite Hlen, length_fmap. }
    split.
    { intros j [-> | Hj]%elem_of_cons; [done|].
      rewrite <- (column_at_alter_ne (abs_in (column_at j0 rs)) j j0 rs)
        by (by intros ->).
      by apply Haccs. }
    intros i r Hi.
    destruct (Hrows i (alter (abs_in (column_at j0 rs)) j0 r))
      as (r' & Hr' & Hlen' & Hcells).
    { by rewrite list_lookup_fmap, Hi. }
    exists r'. split; [done|]. split; [by rewrite Hlen', length_alter|].
    intros j c Hc. destruct (decide (j = j0)) as [->|Hne].
    + rewrite (Hcells j0 (abs_in (column_at j0 rs) c))
        by (by rewrite list_lookup_alter_eq, Hc).
      rewrite decide_False by done. by rewrite decide_True by (by left).
    + rewrite (Hcells j c) by (by rewrite list_lookup_alter_ne).
      rewrite column_at_alter_ne by done.
      destruct (decide (j ∈ js)) as [Hjs|Hjs].
      * by rewrite decide_True by (by right).
      * rewrite decide_False; [done|]. by intros [?|?]%elem_of_cons.
Qed.


Lemma set_df_same (p : Processor Engine) (d : DataFrame) :
  df p = Some d → set_df (Some d) p = p.
Proof. destruct p. simpl. by intros ->. Qed.

(** Line 90, when it returns. *)
Lemma abs_step_inv (p : Processor Engine) (w : World) (d : DataFrame)
    (abs_column : cell) (s' : State) :
  df p = Some d →
  abs_step abs_column (p, w) = (Ok tt, s') →
  ∃ rs : list (list cell),
    abs_columns_at (positions abs_column (columns d)) (rows d) = Ok rs
    ∧ s' = (set_df (Some {| columns := columns d; rows := rs |}) p, w).
Proof.
  intros Hdf.
  unfold abs_step, get_df, mbind, M_bind, get_self, lift, raise, lift,
    modify_self, mret, M_ret.
  simpl. rewrite Hdf. simpl.
  destruct (positions abs_column (columns d)) as [|j js] eqn:Hpos; [done|].
  change (abs_column_at j (rows d) ≫= _)
    with (abs_columns_at (j :: js) (rows d)).
  destruct (abs_columns_at (j :: js) (rows d)) as [rs|e] eqn:Habs; [|done].
  intros [= <-]. by exists rs.
Qed.

(** Line 91, when it returns: one column carries the label and its cells
    went through the remap table, or the table has no rows. *)
Lemma remap_step_inv (p : Processor Engine) (w : World) (d : DataFrame)
    (column_name : cell) (s' : State) :
  df p = Some d →
  remap_step column_name (p, w) = (Ok tt, s') →
  ∃ (j : nat) (f : cell → cell),
    (positions column_name (columns d) = [j] ∨ rows d = [])
    ∧ s' = (set_df (Some {| columns := columns d;
                            rows := alter f j <$> rows d |}) p, w)
    ∧ ∀ table, values_to_rename p = PDict table → f = dict_get_default table.
Proof.
  intros Hdf.
  assert (Hempty : rows d = [] →
            ∀ f : cell → cell,
              (p, w) = (set_df (Some {| columns := columns d;
                                        rows := alter f 0%nat <$> rows d |}) p,
                        w)).
  { intros Hrows f. rewrite Hrows. simpl.
    replace {| columns := columns d; rows := [] |} with d
      by (destruct d; simpl in *; by subst).
    by rewrite set_df_same. }
  unfold remap_step, get_df, mbind, M_bind, get_self, lift, raise, lift,
    modify_self, mret, M_ret.
  simpl. rewrite Hdf. simpl.
  destruct (positions column_name (columns d)) as [|j [|j' js]] eqn:Hpos;
    [done| |].
  - destruct (values_to_rename p) as [c|table] eqn:Hvtr.
    + destruct (rows d) as [|r rs] eqn:Hrows; [|done].
      intros [= <-]. exists j, id. split; [by left|]. split; [|done].
      simpl. f_equal. symmetry.
      replace {| columns := columns d; rows := [] |} with d
        by (destruct d; simpl in *; by subst).
      by apply set_df_same.
    + intros [= <-]. exists j, (dict_get_default table).
      split; [by left|]. split; [done|]. by intros ? [= <-].
  - destruct (rows d) as [|r rs] eqn:Hrows;
      [|by destruct (values_to_rename p)].
    intros [= <-]. pose proof (Hempty eq_refl) as Hany.
    destruct (values_to_rename p) as [c|table] eqn:Hvtr.
    + exists 0%nat, id. split; [by right|]. split; [apply Hany | done].
    + exists 0%nat, (dict_get_default table). split; [by right|].
      split; [apply Hany | by intros ? [= <-]].
Qed.


(** [apply_corrections], when it returns. *)
Lemma apply_corrections_inv (p : Processor Engine) (w : World) (d : DataFrame)
    (column_name abs_column : cell) (s' : State) :
  df p = Some d →
  apply_corrections column_name abs_column (p, w) = (Ok tt, s') →
  ∃ (rs : list (list cell)) (j : nat) (f : cell → cell),
    abs_columns_at (positions abs_column (columns d)) (rows d) = Ok rs
    ∧ (positions column_name (columns d) = [j] ∨ rows d = [])
    ∧ s' = (set_df (Some {| columns := columns d;
                            rows := alter f j <$> rs |}) p, w)
    ∧ ∀ table, values_to_rename p = PDict table → f = dict_get_default table.
Proof.
  intros Hdf. unfold apply_corrections, mbind, M_bind.
  destruct (abs_step abs_column (p, w)) as [[[]|e] s1] eqn:Habs; [|done].
  apply (abs_step_inv _ _ d) in Habs as (rs & Hrs & ->); [|done].
  intros Hremap.
  eapply (remap_step_inv _ _ {| columns := columns d; rows := rs |})
    in Hremap as (j & f & Hpos & -> & Hf); [|done].
  exists rs, j, f. split; [done|]. split; [|done].
  destruct Hpos as [Hpos|Hrows]; [by left|]. right. simpl in Hrows.
  apply abs_columns_at_spec in Hrs as (Hlen & _); [|apply positions_NoDup].
  rewrite Hrows in Hlen. by destruct (rows d).
Qed.



(** ** Construction *)

(** C7: when the configuration lacks one of the required keys, [__init__]
    raises a [KeyError] for a required key that is missing (the first in the
    order it reads them), whatever else is configured.  No processor comes
    back, and the world is untouched: the logger is not configured and no
    collaborator has been called. *)
Theorem init_missing_key (config : gmap string pyval) (logging_level : string)
    (w : World) (k : string) :
  k ∈ required_keys →
  config !! k = None →
  ∃ k' : string,
    k' ∈ required_keys
    ∧ config !! k' = None
    ∧ __init__ config logging_level w = (Raise (KeyError (CStr k')), w).
Proof.
  intros Hk Hnone. unfold __init__, getitem, required_keys in *.
  destruct (config !! "db_path") as [v1|] eqn:H1; simpl;
    [|exists "db_path"; split; [by repeat constructor | done]].
  destruct (config !! "sql_query") as [v2|] eqn:H2; simpl;
    [|exists "sql_query"; split; [by repeat constructor | done]].
  destruct (config !! "columns_to_rename") as [v3|] eqn:H3; simpl;
    [|exists "columns_to_rename"; split; [by repeat constructor | done]].
  destruct (config !! "values_to_rename") as [v4|] eqn:H4; simpl;
    [|exists "values_to_rename"; split; [by repeat constructor | done]].
  destruct (config !! "weather_mapping_csv") as [v5|] eqn:H5; simpl;
    [|exists "weather_mapping_csv"; split; [by repeat constructor | done]].
  exfalso. repeat (apply elem_of_cons in Hk as [->|Hk]; [congruence|]).
  by apply elem_of_nil in Hk.
Qed.

(** ** The Enrich stage *)

Lemma positions_from_nil (n : nat) (key : cell) (cols : list cell) :
  positions_from n key cols = [] ↔ key ∉ cols.
Proof.
  revert n. induction cols as [|c cols IH]; intros n; simpl.
  - split; [intros _; by intros ?%elem_of_nil | done].
  - rewrite not_elem_of_cons. destruct (decide (c = key)) as [->|Hne].
    + split; [done | by intros [? _]].
    + rewrite IH. split; [intros Hk; split; [congruence | done] | by intros [_ ?]].
Qed.

Lemma positions_nil (key : cell) (cols : list cell) :
  positions key cols = [] ↔ key ∉ cols.
Proof. apply positions_from_nil. Qed.

(** Among distinct labels a label has at most one position. *)
Lemma positions_from_NoDup (n : nat) (key : cell) (cols : list cell) :
  NoDup cols →
  positions_from n key cols = [] ∨ ∃ j, positions_from n key cols = [j].
Proof.
  intros Hnd. revert n. induction Hnd as [|c cols Hc Hnd IH]; intros n; simpl.
  - by left.
  - destruct (decide (c = key)) as [->|Hne]; [|apply IH].
    right. exists n. f_equal. by apply positions_from_nil.
Qed.

(** A left row is never dropped: it yields at least one row. *)
Lemma join_row_length (i j : nat) (right : DataFrame) (lrow : list cell) :
  (1 ≤ length (join_row i j right lrow))%nat.
Proof.
  unfold join_row.
  destruct (matching_rows i j (rows right) lrow) as [|m ms]; simpl; lia.
Qed.

(** Every row it yields starts with the left row. *)
Lemma join_row_prefix (i j : nat) (right : DataFrame) (lrow r' : list cell) :
  r' ∈ join_row i j right lrow → lrow `prefix_of` r'.
Proof.
  unfold join_row.
  destruct (matching_rows i j (rows right) lrow) as [|m ms].
  - intros ->%list_elem_of_singleton. by apply prefix_app_r.
  - intros (rrow & -> & _)%list_elem_of_fmap. by apply prefix_app_r.
Qed.

(** When no key occurs twice in the right table, at most one row matches. *)
Lemma matching_rows_unique (i j : nat) (right_rows : list (list cell))
    (lrow : list cell) :
  NoDup ((λ rrow : list cell, rrow !! j) <$> right_rows) →
  (length (matching_rows i j right_rows lrow) ≤ 1)%nat.
Proof.
  unfold matching_rows. induction right_rows as [|r rs IH]; simpl; [lia|].
  intros [Hr Hnd]%NoDup_cons. rewrite filter_cons.
  destruct (decide (r !! j = lrow !! i)) as [Heq|Hne]; [|by apply IH].
  simpl. assert (filter (λ rrow, rrow !! j = lrow !! i) rs = []) as ->; [|done].
  destruct (filter (λ rrow, rrow !! j = lrow !! i) rs) as [|r0 rs0] eqn:Hf;
    [done|].
  assert (Hr0 : r0 ∈ filter (λ rrow, rrow !! j = lrow !! i) rs)
    by (rewrite Hf; by left).
  apply list_elem_of_filter in Hr0 as [Hk Hr0]. destruct Hr.
  apply list_elem_of_fmap. exists r0. split; [congruence | done].
Qed.

Lemma join_row_unique (i j : nat) (right : DataFrame) (lrow : list cell) :
  NoDup ((λ rrow : list cell, rrow !! j) <$> rows right) →
  length (join_row i j right lrow) = 1%nat.
Proof.
  intros Hnd. pose proof (matching_rows_unique i j (rows right) lrow Hnd) as Hle.
  unfold join_row.
  destruct (matching_rows i j (rows right) lrow) as [|m ms]; [done|].
  simpl in *. rewrite length_fmap. lia.
Qed.

Lemma bind_length_ge {A B : Type} (f : A → list B) (l : list A) :
  (∀ x, x ∈ l → (1 ≤ length (f x))%nat) → (length l ≤ length (l ≫= f))%nat.
Proof.
  induction l as [|x l IH]; intros Hf; [simpl; lia|].
  rewrite bind_cons, length_app. simpl.
  pose proof (Hf x ltac:(by left)).
  pose proof (IH ltac:(intros y Hy; apply Hf; by right)). lia.
Qed.

Lemma bind_length_eq {A B : Type} (f : A → list B) (l : list A) :
  (∀ x, x ∈ l → length (f x) = 1%nat) → length (l ≫= f) = length l.
Proof.
  induction l as [|x l IH]; intros Hf; [done|].
  rewrite bind_cons, length_app. simpl.
  rewrite (Hf x) by (by left). rewrite IH; [done|].
  intros y Hy. apply Hf. by right.
Qed.

(** The join leaves the key's cell of a row of the right table alone. *)
Lemma widen_row_key (nulls_coming : bool) (j : nat)
    (right_rows : list (list cell)) (rrow : list cell) :
  widen_row nulls_coming j right_rows rrow !! j = rrow !! j.
Proof.
  unfold widen_row. rewrite list_lookup_imap.
  destruct (rrow !! j) as [c|]; simpl; [|done].
  by rewrite bool_decide_false by (by intros ?).
Qed.


Lemma matching_rows_fmap (i j : nat) (h : list cell → list cell)
    (right_rows : list (list cell)) (lrow : list cell) :
  (∀ rrow, h rrow !! j = rrow !! j) →
  matching_rows i j (h <$> right_rows) lrow
  = h <$> matching_rows i j right_rows lrow.
Proof.
  intros Hh. unfold matching_rows.
  induction right_rows as [|r rs IH]; [done|].
  rewrite fmap_cons, !filter_cons, IH, Hh.
  by destruct (decide (r !! j = lrow !! i)).
Qed.

(** What a left row becomes in the join, in terms of the right table as it
    was fetched. *)
Lemma join_row_widened (i j : nat) (left_rows : list (list cell))
    (right : DataFrame) (lrow : list cell) :
  join_row i j (widened i j left_rows right) lrow
  = match matching_rows i j (rows right) lrow with
    | [] => [lrow ++ replicate (length (columns right) - 1) CNull]
    | ms =>
        (λ rrow,
           lrow ++ delete j
                     (widen_row (existsb (unmatched i j (rows right)) left_rows)
                        j (rows right) rrow)) <$> ms
    end.
Proof.
  unfold join_row, widened. cbn [rows columns].
  rewrite matching_rows_fmap by (intros; apply widen_row_key).
  destruct (matching_rows i j (rows right) lrow) as [|m ms]; [done|].
  rewrite !fmap_cons. f_equal. by rewrite <- list_fmap_compose.
Qed.

(** [merge], when it returns: the key labels one column on each side, and
    the rows are the joined left rows, in order. *)
Lemma merge_inv (left right merged : DataFrame) (key : cell) :
  merge merge_keys_compatible left right key = Ok merged →
  ∃ i j : nat,
    positions key (columns left) = [i]
    ∧ positions key (columns right) = [j]
    ∧ rows merged
      = rows left ≫= join_row i j (widened i j (rows left) right).
Proof.
  unfold merge.
  destruct (positions key (columns right)) as [|j [|j' js]]; [done| |done].
  destruct (positions key (columns left)) as [|i [|i' ks]]; [done| |done].
  destruct (merge_keys_compatible _ _); [|done].
  destruct (items_overlap_with_suffix _ _) as [labels|e]; simpl; [|done].
  intros [= <-]. by exists i, j.
Qed.

(** [merge] without the key on one side. *)
Lemma merge_missing_key (left right : DataFrame) (key : cell) :
  NoDup (columns right) →
  key ∉ columns left ∨ key ∉ columns right →
  merge merge_keys_compatible left right key = Raise (KeyError key).
Proof.
  intros Hnd Hmiss. unfold merge.
  destruct (positions_from_NoDup 0 key (columns right) Hnd) as [Hr|[j Hr]];
    unfold positions; rewrite Hr; [done|].
  destruct Hmiss as [Hl|Hr'].
  - apply positions_nil in Hl. unfold positions in Hl. by rewrite Hl.
  - apply positions_nil in Hr'. unfold positions in Hr'. congruence.
Qed.

(** [weather_station_mapping] on a loaded table, once the weather mapping
    has been fetched: the rename is done, and the merge decides. *)
Lemma weather_station_mapping_run (p : Processor Engine) (w : World)
    (d wm : DataFrame) :
  df p = Some d →
  read_from_web_CSV (weather_map_data p) = Ok wm →
  weather_station_mapping (p, w)
  = match merge merge_keys_compatible (station_renamed d) wm (CStr "Field_ID") with
    | Ok merged =>
        (Ok tt, (set_df (Some merged) p,
                 emit (CallReadFromWebCSV (weather_map_data p)) w))
    | Raise e =>
        (Raise e, (set_df (Some (station_renamed d)) p,
                   emit (CallReadFromWebCSV (weather_map_data p)) w))
    end.
Proof.
  intros Hdf Hread.
  unfold weather_station_mapping, get_df, mbind, M_bind, get_self, lift,
    modify_self, call, mret, M_ret.
  simpl. rewrite Hread, Hdf. simpl. fold (station_renamed d).
  by destruct (merge _ _ _ _).
Qed.

(** C1 (amended): when [weather_station_mapping] returns, the table has at
    least as many rows as before, and exactly as many when no [Field_ID]
    occurs twice in the weather mapping; every row of the input is the
    beginning of a row of the output, and a row whose [Field_ID] matches
    nothing is there once more with a null in each of the weather mapping's
    other columns.  The rows of the output are the rows of the input in
    their order, each repeated once per weather-mapping row it matches (once
    when it matches none) and continued by further cells. *)
Theorem weather_station_mapping_rows (p p' : Processor Engine) (w w' : World)
    (d wm : DataFrame) :
  df p = Some d →
  read_from_web_CSV (weather_map_data p) = Ok wm →
  weather_station_mapping (p, w) = (Ok tt, (p', w')) →
  ∃ (d' : DataFrame) (i j : nat),
    df p' = Some d'
    ∧ positions (CStr "Field_ID") (columns (station_renamed d)) = [i]
    ∧ positions (CStr "Field_ID") (columns wm) = [j]
    ∧ (length (rows d) ≤ length (rows d'))%nat
    ∧ (NoDup ((λ rrow : list cell, rrow !! j) <$> rows wm) →
       length (rows d') = length (rows d))
    ∧ (∀ r, r ∈ rows d → ∃ r', r' ∈ rows d' ∧ r `prefix_of` r')
    ∧ (∀ r, r ∈ rows d →
         (∀ rrow, rrow ∈ rows wm → rrow !! j ≠ r !! i) →
         r ++ replicate (length (columns wm) - 1) CNull ∈ rows d')
    ∧ ∃ ext : list cell → list (list cell),
        rows d' = rows d ≫= (λ r, (λ cells, r ++ cells) <$> ext r)
        ∧ ∀ r, length (ext r)
               = Nat.max 1
                   (length (filter (λ rrow : list cell, rrow !! j = r !! i)
                              (rows wm))).
Proof.
  intros Hdf Hread. rewrite (weather_station_mapping_run p w d wm) by done.
  destruct (merge _ _ _ _) as [merged|e] eqn:Hmerge; [|done].
  intros [= <- <-]. apply merge_inv in Hmerge as (i & j & Hi & Hj & Hrows).
  change (rows (station_renamed d)) with (rows d) in Hrows.
  exists merged, i, j. split; [done|]. split; [done|]. split; [done|].
  rewrite Hrows. set (held := widened i j (rows d) wm).
  assert (Hkeys : (λ rrow : list cell, rrow !! j) <$> rows held
                  = (λ rrow : list cell, rrow !! j) <$> rows wm).
  { unfold held, widened. simpl. rewrite <- list_fmap_compose.
    apply list_fmap_ext. intros k rrow _. simpl. apply widen_row_key. }
  split; [|split; [|split; [|split]]].
  - apply bind_length_ge. intros r _. apply join_row_length.
  - intros Hnd. apply bind_length_eq. intros r _. apply join_row_unique.
    by rewrite Hkeys.
  - intros r Hr. pose proof (join_row_length i j held r) as Hlen.
    destruct (join_row i j held r) as [|r' rs'] eqn:Hjoin; [simpl in Hlen; lia|].
    exists r'. split.
    + apply list_elem_of_bind. exists r. split; [|done]. rewrite Hjoin. by left.
    + apply (join_row_prefix i j held). rewrite Hjoin. by left.
  - intros r Hr Hno. apply list_elem_of_bind. exists r. split; [|done].
    unfold held. rewrite join_row_widened.
    destruct (matching_rows i j (rows wm) r) as [|m ms] eqn:Hm; [by left|].
    assert (Hin : m ∈ matching_rows i j (rows wm) r) by (rewrite Hm; by left).
    apply list_elem_of_filter in Hin as [Heq Hin]. by destruct (Hno m Hin).
  - exists (λ r,
      match matching_rows i j (rows wm) r with
      | [] => [replicate (length (columns wm) - 1) CNull]
      | ms =>
          (λ rrow,
             delete j (widen_row (existsb (unmatched i j (rows wm)) (rows d))
                         j (rows wm) rrow)) <$> ms
      end).
    split.
    + apply list_bind_ext; [|done]. intros r. unfold held.
      rewrite join_row_widened.
      destruct (matching_rows i j (rows wm) r) as [|m ms]; [done|].
      by rewrite <- list_fmap_compose.
    + intros r. fold (matching_rows i j (rows wm) r).
      destruct (matching_rows i j (rows wm) r) as [|m ms]; [done|].
      rewrite length_fmap. simpl. lia.
Qed.

(** C9: when the join key labels no column of the table after the rename
    of line 99, or no column of the weather mapping that was fetched,
    [weather_station_mapping] raises a [KeyError] for it. *)
Theorem weather_station_mapping_missing_key (p : Processor Engine) (w : World)
    (d wm : DataFrame) :
  df p = Some d →
  read_from_web_CSV (weather_map_data p) = Ok wm →
  CStr "Field_ID" ∉ columns (station_renamed d)
  ∨ CStr "Field_ID" ∉ columns wm →
  ∃ s' : State,
    weather_station_mapping (p, w) = (Raise (KeyError (CStr "Field_ID")), s').
Proof.
  intros Hdf Hread Hmiss.
  rewrite (weather_station_mapping_run p w d wm) by done.
  rewrite merge_missing_key by eauto using read_from_web_CSV_header.
  by eexists.
Qed.

(** ** Orchestration *)

Lemma ingest_sql_data_events (p : Processor Engine) (w : World) :
  ∃ evs : list event,
    same_config p (ingest_sql_data (p, w)).2.1
    ∧ after_events w evs (ingest_sql_data (p, w)).2.2
    ∧ match (ingest_sql_data (p, w)).1 with
      | Ok _ =>
          evs = [CallCreateDbEngine (db_path p); CallQueryData (sql_query p);
                 CallLoggerInfo "Successfully loaded data."]
      | Raise _ =>
          evs = [CallCreateDbEngine (db_path p)]
          ∨ evs = [CallCreateDbEngine (db_path p); CallQueryData (sql_query p)]
      end.
Proof.
  unfold ingest_sql_data. run_method.
  destruct (create_db_engine (db_path p)) as [e|err]; simpl.
  - destruct (query_data e (sql_query p)) as [d|err]; simpl.
    + eexists. repeat split; try done. by rewrite <- !app_assoc.
    + eexists. repeat split; try (by right). by rewrite <- app_assoc.
  - eexists. repeat split; by left.
Qed.

Lemma rename_columns_events (p : Processor Engine) (w : World) :
  same_config p (rename_columns (p, w)).2.1
  ∧ match (rename_columns (p, w)).1 with
    | Ok _ =>
        ∃ kv, first_key_value (columns_to_rename p) = Ok kv
          ∧ after_events w [CallLoggerInfo (swapped_message kv.1 kv.2)]
              (rename_columns (p, w)).2.2
    | Raise _ => (rename_columns (p, w)).2.2 = w
    end.
Proof.
  unfold rename_columns. run_method.
  destruct (first_key_value (columns_to_rename p)) as [kv|err]; simpl; [|done].
  destruct (df p) as [d|]; simpl; [|done].
  split; [done|]. by exists kv.
Qed.

Lemma abs_step_events (abs_column : cell) (p : Processor Engine) (w : World) :
  same_config p (abs_step abs_column (p, w)).2.1
  ∧ (abs_step abs_column (p, w)).2.2 = w.
Proof.
  unfold abs_step. run_method.
  destruct (df p) as [d|]; simpl; [|done].
  destruct (positions abs_column (columns d)) as [|j js]; simpl; [done|].
  by destruct (abs_column_at j (rows d) ≫= _).
Qed.

Lemma remap_step_events (column_name : cell) (p : Processor Engine) (w : World) :
  same_config p (remap_step column_name (p, w)).2.1
  ∧ (remap_step column_name (p, w)).2.2 = w.
Proof.
  unfold remap_step. run_method.
  destruct (df p) as [d|]; simpl; [|done].
  destruct (positions column_name (columns d)) as [|j [|j' js]]; simpl;
    [done|..]; destruct (values_to_rename p) eqn:Hvtr; simpl; try done;
    destruct (rows d); simpl; done.
Qed.

Lemma apply_corrections_events (column_name abs_column : cell)
    (p : Processor Engine) (w : World) :
  same_config p (apply_corrections column_name abs_column (p, w)).2.1
  ∧ (apply_corrections column_name abs_column (p, w)).2.2 = w.
Proof.
  unfold apply_corrections, mbind, M_bind.
  pose proof (abs_step_events abs_column p w) as [Hcfg Hw].
  destruct (abs_step abs_column (p, w)) as [[[]|e] [p1 w1]]; simpl in *; [|done].
  subst w1. pose proof (remap_step_events column_name p1 w) as [Hcfg' Hw'].
  split; [|done]. unfold same_config in *.
  destruct Hcfg as (? & ? & ? & ? & ?), Hcfg' as (? & ? & ? & ? & ?).
  repeat split; congruence.
Qed.

Lemma weather_station_mapping_events (p : Processor Engine) (w : World) :
  same_config p (weather_station_mapping (p, w)).2.1
  ∧ after_events w [CallReadFromWebCSV (weather_map_data p)]
      (weather_station_mapping (p, w)).2.2.
Proof.
  unfold weather_station_mapping. run_method.
  destruct (read_from_web_CSV (weather_map_data p)) as [wm|err]; simpl; [|done].
  destruct (df p) as [d|]; simpl; [|done].
  by destruct (merge _ _ _ _).
Qed.

(** C8: [process] runs Ingest, Rename, Correct and Enrich in this order.
    A stage that raises ends the run with its exception and the state it
    left, and the stages after it are not run; what the run asked of its
    surroundings is the beginning of the pipeline's list of calls, and the
    whole list when the run returns. *)
Theorem process_stages_in_order (s : State) :
  match ingest_sql_data s with
  | (Raise e, s1) => process s = (Raise e, s1)
  | (Ok _, s1) =>
      match rename_columns s1 with
      | (Raise e, s2) => process s = (Raise e, s2)
      | (Ok _, s2) =>
          match apply_corrections (CStr "Crop_type") (CStr "Elevation") s2 with
          | (Raise e, s3) => process s = (Raise e, s3)
          | (Ok _, s3) => process s = weather_station_mapping s3
          end
      end
  end
  ∧ ∃ evs : list event,
      after_events s.2 evs (process s).2.2
      ∧ evs `prefix_of` pipeline_events s.1
      ∧ ((process s).1 = Ok tt → evs = pipeline_events s.1).
Proof.
  destruct s as [p w]. unfold process, mbind, M_bind, pipeline_events. simpl.
  destruct (ingest_sql_data_events p w) as (evs1 & Hc1 & [Hl1 Ht1] & He1).
  destruct (ingest_sql_data (p, w)) as [[d0|e] [p1 w1]]; simpl in *.
  2:{ split; [done|]. exists evs1. split; [done|]. split; [|done].
      destruct He1 as [-> | ->]; by eexists. }
  subst evs1.
  destruct (rename_columns_events p1 w1) as [Hc2 He2].
  destruct Hc1 as (Hdb & Hsql & Hctr & Hvtr & Hwmd).
  destruct (rename_columns (p1, w1)) as [[[]|e] [p2 w2]]; simpl in *.
  2:{ split; [done|]. subst w2. eexists. split; [done|]. split; [|done].
      by eexists. }
  destruct He2 as (kv & Hkv & Hl2 & Ht2). rewrite Hctr in Hkv. rewrite Hkv.
  destruct Hc2 as (_ & _ & _ & _ & Hwmd2).
  destruct (apply_corrections_events (CStr "Crop_type") (CStr "Elevation") p2 w2)
    as [Hc3 He3].
  destruct (apply_corrections _ _ (p2, w2)) as [[[]|e] [p3 w3]]; simpl in *;
    subst w3.
  2:{ split; [done|]. eexists. split; [split; [congruence|]|].
      - rewrite Ht2, Ht1, <- app_assoc. done.
      - split; [|done]. by eexists. }
  destruct Hc3 as (_ & _ & _ & _ & Hwmd3).
  destruct (weather_station_mapping_events p3 w2) as [_ [Hl4 Ht4]].
  split; [done|]. eexists. split; [split; [congruence|]|].
  - rewrite Ht4, Ht2, Ht1, <- !app_assoc. simpl.
    rewrite Hwmd3, Hwmd2, Hwmd. done.
  - split; [|done]. exists nil. by rewrite app_nil_r.
Qed.

(** * Further properties of the methods *)

(** ** The placeholder loop (lines 72-74) *)

(** X1: the loop [while temp_name in self.df.columns: temp_name += "_"]
    leaves after at most one round per column, with the first of the names
    [__temp_name_for_swap__], [__temp_name_for_swap___], ... that labels no
    column; a larger bound on the rounds gives the same name. *)
Theorem probe_temp_name_first_unused (cols : list cell) :
  ∃ k : nat,
    (k ≤ length cols)%nat
    ∧ probe_temp_name (length cols) cols temp_name_for_swap
      = temp_name_for_swap +:+ underscores k
    ∧ (∀ j, (j < k)%nat → CStr (temp_name_for_swap +:+ underscores j) ∈ cols)
    ∧ (CStr (temp_name_for_swap +:+ underscores k) ∉ cols)
    ∧ ∀ fuel, (length cols ≤ fuel)%nat →
        probe_temp_name fuel cols temp_name_for_swap
        = temp_name_for_swap +:+ underscores k.
Proof.
  destruct (probe_temp_name_run (length cols) cols temp_name_for_swap)
    as (k & Hk & Hres & Hbelow & Hstop).
  assert (Hfresh : CStr (temp_name_for_swap +:+ underscores k) ∉ cols).
  { destruct (decide (k = length cols)) as [->|Hne].
    - by apply candidates_exhaust.
    - apply Hstop. lia. }
  exists k. split; [done|]. split; [done|]. split; [done|]. split; [done|].
  intros fuel Hfuel.
  destruct (probe_temp_name_run fuel cols temp_name_for_swap)
    as (k' & Hk' & -> & Hbelow' & Hstop').
  destruct (Nat.lt_trichotomy k' k) as [Hlt|[->|Hgt]]; [|done|].
  - destruct (Hstop' ltac:(lia)). by apply Hbelow.
  - destruct Hfresh. by apply Hbelow'.
Qed.

(** ** [rename_columns] (lines 66-80) *)

Lemma swap_label_inj (a b : cell) : Inj (=) (=) (swap_label a b).
Proof.
  intros x y Hxy. rewrite <- (swap_label_involutive a b x), Hxy.
  apply swap_label_involutive.
Qed.

(** The labels after the two renames: exchanged, unless the first name is
    the placeholder itself. *)
Lemma swapped_columns_cases (a b : cell) (d : DataFrame) :
  columns (swapped a b d)
  = if decide (a = placeholder d) then columns d
    else swap_label a b <$> columns d.
Proof.
  pose proof (probe_temp_name_fresh (columns d) temp_name_for_swap) as Hfresh.
  fold (placeholder d) in Hfresh.
  apply list_eq. intros i. rewrite swapped_columns_lookup.
  fold (placeholder d).
  destruct (decide (a = placeholder d)) as [Ha|Ha].
  - destruct (columns d !! i) as [c|] eqn:Hi; [|done]. simpl. f_equal.
    assert (Hc : c ∈ columns d) by (by eapply list_elem_of_lookup_2).
    rewrite first_mapper_get, second_mapper_get.
    repeat (case_decide; simplify_eq); done.
  - rewrite list_lookup_fmap.
    destruct (columns d !! i) as [c|] eqn:Hi; [|done]. simpl. f_equal.
    assert (Hc : c ∈ columns d) by (by eapply list_elem_of_lookup_2).
    apply swap_via_temp; [by intros -> | done].
Qed.

(** X2: when [rename_columns] raises, it has changed nothing and logged
    nothing, and the exception is an [IndexError] for an empty rename
    mapping, or an [AttributeError] for a rename mapping that is no
    dictionary or for a table that was never loaded; it is never a
    [KeyError]. *)
Theorem rename_columns_failure (p : Processor Engine) (w : World) (e : exn)
    (s' : State) :
  rename_columns (p, w) = (Raise e, s') →
  s' = (p, w)
  ∧ ((e = IndexError ∧ columns_to_rename p = PDict [])
     ∨ (e = AttributeError
        ∧ ((∃ c, columns_to_rename p = PCell c) ∨ df p = None))).
Proof.
  unfold rename_columns. run_method.
  destruct (columns_to_rename p) as [c|[|kv rest]] eqn:Hctr; simpl.
  - intros [= <- <-]. split; [done|]. right. split; [done|]. left. by exists c.
  - intros [= <- <-]. split; [done|]. by left.
  - destruct (df p) as [d|] eqn:Hdf; simpl; [done|].
    intros [= <- <-]. split; [done|]. right. split; [done|]. by right.
Qed.

(** X3: on a loaded table [rename_columns] relabels every column by the
    exchange of the two configured names and moves no cell; so a column
    whose counterpart is absent simply takes the other name.  The one
    exception: when the first name is the very placeholder the loop settles
    on, the table is left as it was. *)
Theorem rename_columns_labels (p : Processor Engine) (w : World)
    (d : DataFrame) (a b : cell) (rest : list (cell * cell)) :
  df p = Some d →
  columns_to_rename p = PDict ((a, b) :: rest) →
  ∃ w' : World,
    rename_columns (p, w)
    = (Ok tt,
       (set_df (Some {| columns := if decide (a = placeholder d)
                                   then columns d
                                   else swap_label a b <$> columns d;
                        rows := rows d |}) p, w')).
Proof.
  intros Hdf Hctr. eexists.
  rewrite (rename_columns_run p w d a b rest) by done.
  do 3 f_equal. rewrite <- swapped_columns_cases.
  by destruct d.
Qed.

(** X4: [rename_columns] keeps the labels of a table distinct, and keeps
    the number of columns and the rows. *)
Theorem rename_columns_keeps_labels_distinct (p p' : Processor Engine)
    (w w' : World) (d : DataFrame) :
  df p = Some d →
  rename_columns (p, w) = (Ok tt, (p', w')) →
  NoDup (columns d) →
  ∃ d' : DataFrame,
    df p' = Some d'
    ∧ NoDup (columns d')
    ∧ length (columns d') = length (columns d)
    ∧ rows d' = rows d.
Proof.
  intros Hdf Hrun Hnd.
  destruct (columns_to_rename p) as [c|[|[a b] rest]] eqn:Hctr.
  1,2: revert Hrun; unfold rename_columns; run_method; by rewrite Hctr.
  rewrite (rename_columns_run p w d a b rest) in Hrun by done.
  injection Hrun as <- <-. exists (swapped a b d).
  split; [done|]. rewrite swapped_columns_cases.
  destruct (decide (a = placeholder d)); [done|].
  split; [|by rewrite length_fmap].
  pose proof (swap_label_inj a b) as Hinj. by apply (NoDup_fmap_2 _).
Qed.

(** ** [apply_corrections] (lines 82-92) *)

(** X5: [apply_corrections] touches the two designated columns only: the
    labels, the number of rows and the length of every row are as before,
    and so is every cell under another label. *)
Theorem apply_corrections_frame (p p' : Processor Engine) (w w' : World)
    (d : DataFrame) (column_name abs_column : cell) :
  df p = Some d →
  apply_corrections column_name abs_column (p, w) = (Ok tt, (p', w')) →
  ∃ d' : DataFrame,
    df p' = Some d'
    ∧ columns d' = columns d
    ∧ length (rows d') = length (rows d)
    ∧ ∀ i r, rows d !! i = Some r →
        ∃ r' : list cell,
          rows d' !! i = Some r'
          ∧ length r' = length r
          ∧ ∀ j c, r !! j = Some c →
              columns d !! j ≠ Some abs_column →
              columns d !! j ≠ Some column_name →
              r' !! j = Some c.
Proof.
  intros Hdf Hrun.
  apply (apply_corrections_inv _ _ d) in Hrun
    as (rs & jc & f & Habs & Hpos & [= -> ->] & _); [|done].
  apply abs_columns_at_spec in Habs as (Hlen & _ & Hrows);
    [|apply positions_NoDup].
  eexists. split; [done|]. split; [done|]. split.
  { simpl. by rewrite length_fmap. }
  intros i r Hi.
  destruct Hpos as [Hpos|Hempty]; [|by rewrite Hempty in Hi].
  destruct (Hrows i r Hi) as (r1 & Hr1 & Hlen1 & Hcells).
  exists (alter f jc r1). split.
  { simpl. by rewrite list_lookup_fmap, Hr1. }
  split; [by rewrite length_alter|].
  intros j c Hc Hac Hcn.
  pose proof (Hcells j c Hc) as Hc1.
  rewrite decide_False in Hc1 by (by intros ?%elem_of_positions).
  rewrite list_lookup_alter_ne; [done|].
  intros ->. apply Hcn, elem_of_positions. rewrite Hpos. by left.
Qed.

(** X6: a missing column is a [KeyError], and the two lines are not undone
    together: without the numeric column nothing is changed, while without
    the categorical column the exception comes after line 90 and leaves the
    table with the absolute values in place. *)
Theorem apply_corrections_missing_column (p : Processor Engine) (w : World)
    (d : DataFrame) (column_name abs_column : cell) :
  df p = Some d →
  (abs_column ∉ columns d →
   apply_corrections column_name abs_column (p, w)
   = (Raise (KeyError abs_column), (p, w)))
  ∧ (∀ s1,
       abs_step abs_column (p, w) = (Ok tt, s1) →
       column_name ∉ columns d →
       apply_corrections column_name abs_column (p, w)
       = (Raise (KeyError column_name), s1)).
Proof.
  intros Hdf. split.
  - intros Hmiss%positions_nil.
    unfold apply_corrections, abs_step. run_method. by rewrite Hdf, Hmiss.
  - intros s1 Habs Hmiss%positions_nil.
    unfold apply_corrections, mbind, M_bind. rewrite Habs.
    apply (abs_step_inv _ _ d) in Habs as (rs & _ & ->); [|done].
    unfold remap_step. run_method. by rewrite Hmiss.
Qed.

(** X7: when the numeric column holds a string, [apply_corrections] raises
    a [TypeError] and changes nothing. *)
Theorem apply_corrections_string_cell (p : Processor Engine) (w : World)
    (d : DataFrame) (column_name abs_column : cell) (j : nat)
    (r : list cell) (s : string) :
  df p = Some d →
  positions abs_column (columns d) = [j] →
  r ∈ rows d → r !! j = Some (CStr s) →
  apply_corrections column_name abs_column (p, w) = (Raise TypeError, (p, w)).
Proof.
  intros Hdf Hpos Hr Hc.
  assert (Hcol : CStr s ∈ column_at j (rows d)).
  { apply list_elem_of_omap. by exists r. }
  assert (Habs : abs_column_at j (rows d) = Raise TypeError).
  { unfold abs_column_at, held_as_int64, held_as_float64.
    destruct (forallb is_int64 (column_at j (rows d))) eqn:H64.
    { rewrite forallb_forall in H64.
      by apply list_elem_of_In, H64 in Hcol. }
    destruct (forallb (λ c, is_float64_int c || is_null c)
                (column_at j (rows d))) eqn:Hf; simpl.
    { rewrite forallb_forall in Hf.
      by apply list_elem_of_In, Hf in Hcol. }
    destruct (forallb is_int (column_at j (rows d))) eqn:Hi; [|done].
    rewrite forallb_forall in Hi.
    by apply list_elem_of_In, Hi in Hcol. }
  unfold apply_corrections, abs_step. run_method.
  rewrite Hdf. simpl. rewrite Hpos. simpl. by rewrite Habs.
Qed.

(** ** [initialize_logging] (lines 26-55) *)

Lemma upper_ascii_idemp (a : ascii) : upper_ascii (upper_ascii a) = upper_ascii a.
Proof. by destruct a as [[] [] [] [] [] [] [] []]. Qed.

Lemma upper_idemp (s : string) : upper (upper s) = upper s.
Proof.
  induction s as [|a s IH]; simpl; [done|].
  by rewrite upper_ascii_idemp, IH.
Qed.

(** X8: whatever the level asked for, [initialize_logging] switches
    propagation off, never enables a logger that is disabled (the logger is
    one object for the whole process, so a processor built with ["NONE"]
    silences the ones built after it), leaves the logger either disabled or
    with an explicit level, and adds a handler only when there is none. *)
Theorem initialize_logging_invariants (logging_level : string) (lg : Logger) :
  propagate (initialize_logging logging_level lg) = false
  ∧ (disabled lg = true →
     disabled (initialize_logging logging_level lg) = true)
  ∧ (disabled (initialize_logging logging_level lg) = true
     ∨ ∃ l, level (initialize_logging logging_level lg) = Some l)
  ∧ handlers (initialize_logging logging_level lg)
    = (if decide (upper logging_level = "NONE") then handlers lg
       else match handlers lg with O => 1 | n => n end)%nat.
Proof.
  unfold initialize_logging.
  repeat case_decide; simpl; repeat split; try done; try congruence;
    try (by left); by right; eexists.
Qed.

(** X9: configuring the logger a second time with the same level changes
    nothing more; no second handler is added. *)
Theorem initialize_logging_idempotent (logging_level : string) (lg : Logger) :
  initialize_logging logging_level (initialize_logging logging_level lg)
  = initialize_logging logging_level lg.
Proof.
  unfold initialize_logging.
  repeat case_decide; simpl; try done; by destruct (handlers lg).
Qed.

(** X10: the level is read without regard to the case of its letters, and
    a level that is none of [DEBUG], [INFO] and [NONE] counts as [INFO]. *)
Theorem initialize_logging_level_name (logging_level : string) (lg : Logger) :
  initialize_logging (upper logging_level) lg
  = initialize_logging logging_level lg
  ∧ (upper logging_level ≠ "DEBUG" → upper logging_level ≠ "NONE" →
     initialize_logging logging_level lg = initialize_logging "INFO" lg).
Proof.
  split.
  - unfold initialize_logging. by rewrite upper_idemp.
  - intros Hd Hn. unfold initialize_logging.
    change (upper "INFO") with "INFO".
    repeat case_decide; done.
Qed.

(** ** [__init__] (lines 6-24) *)

(** X11: construction returns exactly when the five keys are configured,
    whatever their values and whatever else is configured.  The processor
    it returns holds the five values and the whole configuration, no table
    and no engine; the logger has been configured and no collaborator has
    been called. *)
Theorem init_returns_iff (config : gmap string pyval) (logging_level : string)
    (w : World) :
  ((∀ k, k ∈ required_keys → is_Some (config !! k)) →
   ∃ p : Processor Engine,
     __init__ config logging_level w
     = (Ok p, {| logger := initialize_logging logging_level (logger w);
                 trace := trace w |})
     ∧ config_params p = config
     ∧ config !! "db_path" = Some (db_path p)
     ∧ config !! "sql_query" = Some (sql_query p)
     ∧ config !! "columns_to_rename" = Some (columns_to_rename p)
     ∧ config !! "values_to_rename" = Some (values_to_rename p)
     ∧ config !! "weather_mapping_csv" = Some (weather_map_data p)
     ∧ df p = None
     ∧ engine p = None)
  ∧ (∀ p w', __init__ config logging_level w = (Ok p, w') →
       ∀ k, k ∈ required_keys → is_Some (config !! k)).
Proof.
  unfold __init__, getitem, required_keys. split.
  - intros Hall.
    destruct (Hall "db_path") as [v1 ->]; [by repeat constructor|].
    destruct (Hall "sql_query") as [v2 ->]; [by repeat constructor|].
    destruct (Hall "columns_to_rename") as [v3 ->]; [by repeat constructor|].
    destruct (Hall "values_to_rename") as [v4 ->]; [by repeat constructor|].
    destruct (Hall "weather_mapping_csv") as [v5 ->]; [by repeat constructor|].
    simpl. eexists. split; [done|]. by repeat split.
  - intros p w'.
    destruct (config !! "db_path") as [v1|] eqn:H1; simpl; [|done].
    destruct (config !! "sql_query") as [v2|] eqn:H2; simpl; [|done].
    destruct (config !! "columns_to_rename") as [v3|] eqn:H3; simpl; [|done].
    destruct (config !! "values_to_rename") as [v4|] eqn:H4; simpl; [|done].
    destruct (config !! "weather_mapping_csv") as [v5|] eqn:H5; simpl; [|done].
    intros _ k Hk.
    repeat (apply elem_of_cons in Hk as [->|Hk]; [by eexists|]).
    by apply elem_of_nil in Hk.
Qed.

(** ** [ingest_sql_data] (lines 57-64) *)

(** X12: when [ingest_sql_data] raises, the exception is the one of
    [create_db_engine] or of [query_data], the table held before is still
    held, and nothing is logged; an engine that was created is kept even
    when the query fails. *)
Theorem ingest_sql_data_failure (p p' : Processor Engine) (w w' : World)
    (e : exn) :
  ingest_sql_data (p, w) = (Raise e, (p', w')) →
  df p' = df p
  ∧ logger w' = logger w
  ∧ ((create_db_engine (db_path p) = Raise e
      ∧ p' = p
      ∧ trace w' = trace w ++ [CallCreateDbEngine (db_path p)])
     ∨ (∃ eng,
          create_db_engine (db_path p) = Ok eng
          ∧ query_data eng (sql_query p) = Raise e
          ∧ p' = set_engine (Some eng) p
          ∧ trace w' = trace w ++ [CallCreateDbEngine (db_path p);
                                   CallQueryData (sql_query p)])).
Proof.
  unfold ingest_sql_data. run_method.
  destruct (create_db_engine (db_path p)) as [eng|err] eqn:Hc; simpl.
  - destruct (query_data eng (sql_query p)) as [d|err] eqn:Hq; simpl; [done|].
    intros [= <- <- <-]. simpl. split; [done|]. split; [done|]. right.
    exists eng. by rewrite <- app_assoc.
  - intros [= <- <- <-]. simpl. split; [done|]. split; [done|]. by left.
Qed.

(** X13: when [ingest_sql_data] returns, it returns the table that
    [query_data] gave for the configured query on the engine that
    [create_db_engine] gave for the configured path; the processor now
    holds that table and that engine in place of what it held, and one line
    has been logged after the two calls. *)
Theorem ingest_sql_data_success (p p' : Processor Engine) (w w' : World)
    (d : DataFrame) :
  ingest_sql_data (p, w) = (Ok d, (p', w')) →
  ∃ eng : Engine,
    create_db_engine (db_path p) = Ok eng
    ∧ query_data eng (sql_query p) = Ok d
    ∧ p' = set_df (Some d) (set_engine (Some eng) p)
    ∧ logger w' = logger w
    ∧ trace w' = trace w ++ [CallCreateDbEngine (db_path p);
                             CallQueryData (sql_query p);
                             CallLoggerInfo "Successfully loaded data."].
Proof.
  unfold ingest_sql_data. run_method.
  destruct (create_db_engine (db_path p)) as [eng|err] eqn:Hc; simpl; [|done].
  destruct (query_data eng (sql_query p)) as [d0|err] eqn:Hq; simpl; [|done].
  intros [= <- <- <-]. exists eng. simpl. by rewrite <- !app_assoc.
Qed.

(** ** [weather_station_mapping] (lines 94-101) *)

(** X14: the weather mapping is fetched before the table is looked at.
    When the fetch raises, its exception comes out and the table is not
    even renamed; when no table was loaded, the fetch is made all the same
    and an [AttributeError] follows. *)
Theorem weather_station_mapping_fetch_first (p : Processor Engine) (w : World) :
  (∀ e, read_from_web_CSV (weather_map_data p) = Raise e →
     weather_station_mapping (p, w)
     = (Raise e, (p, emit (CallReadFromWebCSV (weather_map_data p)) w)))
  ∧ (∀ wm, read_from_web_CSV (weather_map_data p) = Ok wm →
       df p = None →
       weather_station_mapping (p, w)
       = (Raise AttributeError,
          (p, emit (CallReadFromWebCSV (weather_map_data p)) w))).
Proof.
  split.
  - intros e Hread. unfold weather_station_mapping. run_method.
    by rewrite Hread.
  - intros wm Hread Hdf. unfold weather_station_mapping. run_method.
    by rewrite Hread, Hdf.
Qed.


(** X16: when the join fails, the rename of line 99 is not undone: the
    table is left with [Weather_station_ID] renamed to [Weather_station],
    and nothing else of the processor is changed. *)
Theorem weather_station_mapping_failure_keeps_rename (p p' : Processor Engine)
    (w w' : World) (d wm : DataFrame) (e : exn) :
  df p = Some d →
  read_from_web_CSV (weather_map_data p) = Ok wm →
  weather_station_mapping (p, w) = (Raise e, (p', w')) →
  p' = set_df (Some (station_renamed d)) p
  ∧ merge merge_keys_compatible (station_renamed d) wm (CStr "Field_ID")
    = Raise e.
Proof.
  intros Hdf Hread. rewrite (weather_station_mapping_run p w d wm) by done.
  destruct (merge _ _ _ _) as [merged|e0] eqn:Hmerge; [done|].
  by intros [= <- <- <-].
Qed.

Lemma last_ascii_app (s t : string) :
  t ≠ "" → last_ascii (s +:+ t) = last_ascii t.
Proof.
  intros Ht. induction s as [|a s IH]; [done|].
  rewrite string_app_cons.
  destruct (s +:+ t) as [|b u] eqn:Hu.
  - destruct s; [by destruct Ht | by rewrite string_app_cons in Hu].
  - by rewrite <- IH.
Qed.

Lemma elem_of_delete_ne (c k : cell) (l : list cell) (j : nat) :
  c ∈ l → l !! j = Some k → c ≠ k → c ∈ delete j l.
Proof.
  intros [i Hi]%list_elem_of_lookup Hj Hne.
  destruct (Nat.lt_trichotomy i j) as [Hlt|[->|Hgt]]; [| congruence |].
  - apply list_elem_of_lookup. exists i. by rewrite list_lookup_delete_lt.
  - apply list_elem_of_lookup. exists (pred i).
    rewrite list_lookup_delete_ge by lia.
    by replace (S (pred i)) with i by lia.
Qed.

(** The labels of what [merge] returns. *)
Lemma merge_inv_labels (left right merged : DataFrame) (key : cell) :
  merge merge_keys_compatible left right key = Ok merged →
  ∃ (j : nat) (labels : list cell * list cell),
    columns right !! j = Some key
    ∧ items_overlap_with_suffix (columns left) (delete j (columns right))
      = Ok labels
    ∧ columns merged = labels.1 ++ labels.2.
Proof.
  unfold merge.
  destruct (positions key (columns right)) as [|j [|j' js]] eqn:Hj;
    [done| |done].
  destruct (positions key (columns left)) as [|i [|i' ks]]; [done| |done].
  destruct (merge_keys_compatible _ _); [|done].
  destruct (items_overlap_with_suffix _ _) as [labels|e] eqn:Hlab; simpl;
    [|done].
  intros [= <-]. exists j, labels. split; [|done].
  apply elem_of_positions. rewrite Hj. by left.
Qed.

(** X17: the station label meets itself.  When the table has a column
    [Weather_station_ID] or [Weather_station], and the weather mapping a
    column [Weather_station], the table that [weather_station_mapping]
    leaves has no column of that name: it has [Weather_station_x] for the
    one of the table and [Weather_station_y] for the one of the weather
    mapping. *)
Theorem weather_station_mapping_station_suffixes (p p' : Processor Engine)
    (w w' : World) (d wm : DataFrame) :
  df p = Some d →
  read_from_web_CSV (weather_map_data p) = Ok wm →
  weather_station_mapping (p, w) = (Ok tt, (p', w')) →
  CStr "Weather_station_ID" ∈ columns d ∨ CStr "Weather_station" ∈ columns d →
  CStr "Weather_station" ∈ columns wm →
  ∃ d' : DataFrame,
    df p' = Some d'
    ∧ CStr "Weather_station_x" ∈ columns d'
    ∧ CStr "Weather_station_y" ∈ columns d'
    ∧ CStr "Weather_station" ∉ columns d'.
Proof.
  intros Hdf Hread Hrun Hleft Hright.
  rewrite (weather_station_mapping_run p w d wm) in Hrun by done.
  destruct (merge _ _ _ _) as [merged|e] eqn:Hmerge; [|done].
  injection Hrun as <- <-. exists merged. split; [done|].
  apply merge_inv_labels in Hmerge as (j & labels & Hj & Hlab & ->).
  set (ws := CStr "Weather_station") in *.
  assert (Hl : ws ∈ columns (station_renamed d)).
  { unfold station_renamed, rename. simpl. apply list_elem_of_fmap.
    destruct Hleft as [Hid|Hws]; [by eexists (CStr "Weather_station_ID")|].
    by exists ws. }
  assert (Hr : ws ∈ delete j (columns wm))
    by (by eapply elem_of_delete_ne).
  revert Hlab. unfold items_overlap_with_suffix.
  destruct (filter _ (columns (station_renamed d))) as [|c0 cs] eqn:Hfilter.
  { assert (Hin : ws ∈ filter (λ c, c ∈ delete j (columns wm))
                          (columns (station_renamed d)))
      by (by apply list_elem_of_filter).
    rewrite Hfilter in Hin. by apply elem_of_nil in Hin. }
  rewrite <- Hfilter.
  assert (Hto : ∀ x : cell,
            x ∈ delete j (columns wm) → x ∈ columns (station_renamed d) →
            x ∈ filter (λ c, c ∈ delete j (columns wm))
                  (columns (station_renamed d)))
    by (intros x ? ?; by apply list_elem_of_filter).
  destruct (_ || _); [done|]. intros [= <-]. simpl.
  assert (Hsuffix : ∀ (x : cell) (suffix : string),
            suffix = "_x" ∨ suffix = "_y" → CStr (str x +:+ suffix) ≠ ws).
  { intros x suffix Hs [= Heq]. apply (f_equal last_ascii) in Heq.
    rewrite last_ascii_app in Heq by (by destruct Hs as [-> | ->]).
    by destruct Hs as [-> | ->]. }
  split; [|split].
  - apply elem_of_app. left. apply list_elem_of_fmap. exists ws.
    split; [|done]. by rewrite decide_True by (by apply Hto).
  - apply elem_of_app. right. apply list_elem_of_fmap. exists ws.
    split; [|done]. by rewrite decide_True by (by apply Hto).
  - intros [Hin|Hin]%elem_of_app;
      apply list_elem_of_fmap in Hin as (x & Hx & Hin);
      case_decide as Hdec; simplify_eq.
    + apply (Hsuffix x "_x"); [by left | by rewrite <- Hx].
    + by apply Hdec, Hto.
    + apply (Hsuffix x "_y"); [by right | by rewrite <- Hx].
    + by apply Hdec, Hto.
Qed.

(** ** [process] (lines 103-111) *)

Lemma items_overlap_with_suffix_length (left right : list cell)
    (labels : list cell * list cell) :
  items_overlap_with_suffix left right = Ok labels →
  length labels.1 = length left ∧ length labels.2 = length right.
Proof.
  unfold items_overlap_with_suffix.
  destruct (filter _ left) as [|c cs]; [by intros [= <-]|].
  destruct (_ || _); [done|]. intros [= <-]. simpl.
  by rewrite !length_fmap.
Qed.

(** The shape of what [merge] returns. *)
Lemma merge_inv_shape (left right merged : DataFrame) (key : cell) :
  merge merge_keys_compatible left right key = Ok merged →
  ∃ i j : nat,
    columns left !! i = Some key
    ∧ columns right !! j = Some key
    ∧ length (columns merged)
      = (length (columns left) + (length (columns right) - 1))%nat
    ∧ rows merged
      = rows left ≫= join_row i j (widened i j (rows left) right).
Proof.
  unfold merge.
  destruct (positions key (columns right)) as [|j [|j' js]] eqn:Hj;
    [done| |done].
  destruct (positions key (columns left)) as [|i [|i' ks]] eqn:Hi;
    [done| |done].
  destruct (merge_keys_compatible _ _); [|done].
  destruct (items_overlap_with_suffix _ _) as [labels|e] eqn:Hlab; simpl;
    [|done].
  intros [= <-]. exists i, j. simpl.
  assert (Hjr : columns right !! j = Some key).
  { apply elem_of_positions. rewrite Hj. by left. }
  split; [apply elem_of_positions; rewrite Hi; by left|].
  split; [done|]. split; [|done].
  apply items_overlap_with_suffix_length in Hlab as [Hl Hr].
  rewrite length_app, Hl, Hr, length_delete by (by eexists). done.
Qed.

(** What a run of [process] that returns went through. *)
Lemma process_inv (p p' : Processor Engine) (w w' : World) :
  process (p, w) = (Ok tt, (p', w')) →
  ∃ (eng : Engine) (d0 : DataFrame) (a b : cell) (rest : list (cell * cell))
    (rs : list (list cell)) (j : nat) (f : cell → cell)
    (wm merged : DataFrame),
    create_db_engine (db_path p) = Ok eng
    ∧ query_data eng (sql_query p) = Ok d0
    ∧ columns_to_rename p = PDict ((a, b) :: rest)
    ∧ abs_columns_at (positions (CStr "Elevation") (columns (swapped a b d0)))
        (rows d0) = Ok rs
    ∧ read_from_web_CSV (weather_map_data p) = Ok wm
    ∧ merge merge_keys_compatible
        (station_renamed {| columns := columns (swapped a b d0);
                            rows := alter f j <$> rs |})
        wm (CStr "Field_ID") = Ok merged
    ∧ df p' = Some merged.
Proof.
  unfold process, mbind at 1 2 3, M_bind at 1 2 3.
  destruct (ingest_sql_data (p, w)) as [[d0|e] [p1 w1]] eqn:Hing; [|done].
  assert (∃ eng, create_db_engine (db_path p) = Ok eng
                 ∧ query_data eng (sql_query p) = Ok d0
                 ∧ p1 = set_df (Some d0) (set_engine (Some eng) p))
    as (eng & Hc & Hq & ->).
  { revert Hing. unfold ingest_sql_data. run_method.
    destruct (create_db_engine (db_path p)) as [eng|err]; simpl; [|done].
    destruct (query_data eng (sql_query p)) as [d|err] eqn:Hq; simpl; [|done].
    intros [= <- <- <-]. by exists eng. }
  destruct (rename_columns _) as [[[]|e] [p2 w2]] eqn:Hren; [|done].
  destruct (columns_to_rename p) as [c|[|[a b] rest]] eqn:Hctr.
  1,2: revert Hren; unfold rename_columns; run_method; by rewrite Hctr.
  rewrite (rename_columns_run _ w1 d0 a b rest) in Hren by done.
  injection Hren as <- <-.
  destruct (apply_corrections _ _ _) as [[[]|e] [p3 w3]] eqn:Hcor; [|done].
  apply (apply_corrections_inv _ _ (swapped a b d0)) in Hcor
    as (rs & j & f & Habs & Hpos & [= -> ->] & _); [|done].
  intros Hwsm.
  destruct (read_from_web_CSV (weather_map_data p)) as [wm|err] eqn:Hread.
  2:{ revert Hwsm. unfold weather_station_mapping. run_method.
      by rewrite Hread. }
  erewrite weather_station_mapping_run in Hwsm; [|done|exact Hread].
  destruct (merge _ _ _ _) as [merged|e] eqn:Hmerge; [|done].
  injection Hwsm as <- <-.
  exists eng, d0, a, b, rest, rs, j, f, wm, merged. done.
Qed.

(** X18: a run of [process] that returns has lost no row and has added
    the weather mapping's columns: the table it leaves has at least as many
    rows as the table the query gave, and as many columns as that table and
    the weather mapping together, less the one join key. *)
Theorem process_shape (p p' : Processor Engine) (w w' : World) :
  process (p, w) = (Ok tt, (p', w')) →
  ∃ (eng : Engine) (d0 wm d' : DataFrame),
    create_db_engine (db_path p) = Ok eng
    ∧ query_data eng (sql_query p) = Ok d0
    ∧ read_from_web_CSV (weather_map_data p) = Ok wm
    ∧ df p' = Some d'
    ∧ (length (rows d0) ≤ length (rows d'))%nat
    ∧ length (columns d')
      = (length (columns d0) + (length (columns wm) - 1))%nat.
Proof.
  intros Hrun.
  apply process_inv in Hrun
    as (eng & d0 & a & b & rest & rs & j & f & wm & merged
        & Hc & Hq & _ & Habs & Hwm & Hmerge & Hdf).
  exists eng, d0, wm, merged.
  split; [done|]. split; [done|]. split; [done|]. split; [done|].
  apply abs_columns_at_spec in Habs as (Hlen & _); [|apply positions_NoDup].
  apply merge_inv_shape in Hmerge as (i & jr & _ & _ & Hcols & ->).
  split.
  - change (rows (station_renamed _)) with (alter f j <$> rs).
    rewrite <- Hlen, <- (length_fmap (alter f j) rs).
    apply bind_length_ge. intros r _. apply join_row_length.
  - rewrite Hcols. f_equal.
    unfold station_renamed, swapped, rename. simpl. by rewrite !length_fmap.
Qed.

(** X19: [process] starts afresh: the table and the engine a processor
    holds from an earlier run play no part.  The run returns or raises the
    same, asks the same of its surroundings, and when it returns it leaves
    the same processor. *)
Theorem process_reingests (p : Processor Engine) (w : World)
    (held : option DataFrame) (old : option Engine) :
  let out := process (set_df held (set_engine old p), w) in
  let ref := process (p, w) in
  out.1 = ref.1
  ∧ out.2.2 = ref.2.2
  ∧ (ref.1 = Ok tt → out.2.1 = ref.2.1).
Proof.
  unfold process, mbind at 1 2 3 5 6 7 9 10 11 13 14 15 17 18 19,
    M_bind at 1 2 3 5 6 7 9 10 11 13 14 15 17 18 19.
  unfold ingest_sql_data. run_method.
  destruct (create_db_engine (db_path p)) as [eng|err]; simpl; [|done].
  destruct (query_data eng (sql_query p)) as [d|err]; simpl; done.
Qed.

End FieldDataProcessor.

Arguments rename_columns {Engine} _.
Arguments abs_step {Engine} abs_column _.
Arguments remap_step {Engine} column_name _.
Arguments apply_corrections {Engine} column_name abs_column _.
Arguments ingest_sql_data {Engine} create_db_engine query_data _.
Arguments weather_station_mapping {Engine} read_from_web_CSV
  merge_keys_compatible _.
Arguments process {Engine} create_db_engine query_data read_from_web_CSV
  merge_keys_compatible _.
Arguments same_config {Engine} p p'.
Arguments pipeline_events {Engine} p.

(** * The scenario, run *)

Example str_ex : str (CInt (-12)) = "-12".
Proof. reflexivity. Qed.

Example probe_temp_name_ex :
  probe_temp_name 3 [CStr "a"; CStr "__temp_name_for_swap__"; CStr "b"]
    temp_name_for_swap = "__temp_name_for_swap___".
Proof. reflexivity. Qed.

Example merge_ex :
  merge example_keys_compatible
    {| columns := [CStr "Field_ID"; CStr "Weather_station"];
       rows := [[CInt 1; CStr "WS1"]; [CInt 3; CStr "WS3"]] |}
    example_weather_df (CStr "Field_ID")
  = Ok {| columns := [CStr "Field_ID"; CStr "Weather_station_x";
                      CStr "Weather_station_y"];
          rows := [[CInt 1; CStr "WS1"; CStr "Station-A"];
                   [CInt 3; CStr "WS3"; CNull]] |}.
Proof. reflexivity. Qed.

(** The rename of the scenario exchanges the two labels and moves no
    cell. *)
Example rename_columns_ex :
  df (rename_columns (example_processor, example_world)).2.1
  = Some {| columns := [CStr "Field_ID"; CStr "Elevation"; CStr "Crop_type";
                        CStr "Weather_station_ID"];
            rows := rows example_df |}.
Proof. reflexivity. Qed.

(** The corrections on the table as loaded. *)
Example apply_corrections_ex :
  df (apply_corrections (CStr "Crop_type") (CStr "Elevation")
        (example_processor, example_world)).2.1
  = Some {| columns := columns example_df;
            rows := [[CInt 1; CStr "Corn"; CInt 5; CStr "WS1"];
                     [CInt 2; CStr "Wheat"; CInt 10; CStr "WS2"];
                     [CInt 3; CStr "Corn"; CInt 3; CStr "WS3"]] |}.
Proof. reflexivity. Qed.

(** The conversion of an integer to a [float64]: exact up to [2^53], then
    to the nearest float, a tie going to the even one. *)
Example float64_of_int_ex :
  float64_of_int (-5) = (-5)%Z
  ∧ float64_of_int 9007199254740992 = 9007199254740992%Z
  ∧ float64_of_int 9007199254740993 = 9007199254740992%Z
  ∧ float64_of_int 9007199254740995 = 9007199254740996%Z
  ∧ float64_of_int (-9007199254740995) = (-9007199254740996)%Z
  ∧ float64_of_int 9223372036854775807 = 9223372036854775808%Z
  ∧ float64_of_int (-9223372036854775808) = (-9223372036854775808)%Z.
Proof. repeat split; reflexivity. Qed.

(** The corrections on a table with a missing elevation: the column is one
    of floats, the missing value stays, and the absolute values are those
    of the floats. *)
Example apply_corrections_gapped_ex :
  let out :=
    apply_corrections (CStr "Crop_type") (CStr "Elevation")
      (set_df (Some gapped_df) example_processor, example_world) in
  out.1 = Ok tt
  ∧ rows <$> df out.2.1
    = Some [[CStr "Corn"; CInt 5];
            [CStr "Wheat"; CNull];
            [CStr "Corn"; CInt 9007199254740992]].
Proof. split; reflexivity. Qed.

(** In a column of floats the least integer of 64 bits has its absolute
    value. *)
Example abs_column_at_float64_ex :
  abs_column_at 0 [[CInt (-9223372036854775808)]; [CNull]]
  = Ok [[CInt 9223372036854775808]; [CNull]].
Proof. reflexivity. Qed.

(** A repeated label on a table without rows: line 91 returns. *)
Example remap_step_no_rows_ex :
  (remap_step (CStr "Crop_type")
     (set_df (Some {| columns := [CStr "Crop_type"; CStr "Crop_type"];
                      rows := [] |}) example_processor,
      example_world)).1
  = Ok tt.
Proof. reflexivity. Qed.

(** A weather mapping with a column of integers: as long as every field has
    its station the integers are kept, and once a field has none the column
    is one of floats. *)
Example merge_numbered_ex :
  merge example_keys_compatible
    {| columns := [CStr "Field_ID"]; rows := [[CInt 1]; [CInt 2]] |}
    numbered_weather_df (CStr "Field_ID")
  = Ok {| columns := [CStr "Field_ID"; CStr "Station_no"];
          rows := [[CInt 1; CInt 10]; [CInt 2; CInt 9007199254740993]] |}
  ∧ merge example_keys_compatible
      {| columns := [CStr "Field_ID"];
         rows := [[CInt 1]; [CInt 2]; [CInt 3]] |}
      numbered_weather_df (CStr "Field_ID")
    = Ok {| columns := [CStr "Field_ID"; CStr "Station_no"];
            rows := [[CInt 1; CInt 10]; [CInt 2; CInt 9007199254740992];
                     [CInt 3; CNull]] |}.
Proof. split; reflexivity. Qed.

(** The enrichment on the table as loaded: the station label of the table
    meets the one of the weather mapping, and field 3 has no station. *)
Example weather_station_mapping_ex :
  df (weather_station_mapping example_read_from_web_CSV
        example_keys_compatible (example_processor, example_world)).2.1
  = Some {| columns := [CStr "Field_ID"; CStr "Crop_type"; CStr "Elevation";
                        CStr "Weather_station_x"; CStr "Weather_station_y"];
            rows := [[CInt 1; CStr "Corn"; CInt (-5); CStr "WS1";
                      CStr "Station-A"];
                     [CInt 2; CStr "XYZ"; CInt 10; CStr "WS2";
                      CStr "Station-B"];
                     [CInt 3; CStr "Corn"; CInt (-3); CStr "WS3"; CNull]] |}.
Proof. reflexivity. Qed.

(** The whole pipeline on the scenario stops in the Correct stage: after
    the exchange the column named [Elevation] holds the crop names, which
    have no absolute value. *)
Example process_ex :
  (process example_create_db_engine example_query_data
     example_read_from_web_CSV example_keys_compatible
     (set_df None example_processor, example_world)).1
  = Raise TypeError.
Proof. reflexivity. Qed.

(** On the survey as its source mislabels it, the pipeline runs through:
    the labels are exchanged, the elevations made positive, the crop
    renamed, the stations joined, and the collaborators called in order. *)
Example process_mislabelled_ex :
  let out :=
    process example_create_db_engine mislabelled_query_data
      example_read_from_web_CSV example_keys_compatible
      (set_df None example_processor, example_world) in
  out.1 = Ok tt
  ∧ df out.2.1
    = Some {| columns := [CStr "Field_ID"; CStr "Elevation"; CStr "Crop_type";
                          CStr "Weather_station_x"; CStr "Weather_station_y"];
              rows := [[CInt 1; CInt 5; CStr "Corn"; CStr "WS1";
                        CStr "Station-A"];
                       [CInt 2; CInt 10; CStr "Wheat"; CStr "WS2";
                        CStr "Station-B"];
                       [CInt 3; CInt 3; CStr "Corn"; CStr "WS3"; CNull]] |}
  ∧ trace out.2.2
    = [CallCreateDbEngine (PCell (CStr "sqlite:///farm_survey.db"));
       CallQueryData (PCell (CStr "SELECT * FROM farm_survey"));
       CallLoggerInfo "Successfully loaded data.";
       CallLoggerInfo "Swapped columns: Crop_type with Elevation";
       CallReadFromWebCSV (PCell (CStr "https://example.org/weather.csv"))].
Proof. repeat split; reflexivity. Qed.

(** * The claims at concrete inputs *)

(** C1, as stated, fails: with field 1 listed twice in the weather mapping,
    the three rows of the table become four. *)
Lemma weather_station_mapping_repeated_key :
  let out :=
    weather_station_mapping repeated_read_from_web_CSV example_keys_compatible
      (example_processor, example_world) in
  out.1 = Ok tt
  ∧ rows <$> df out.2.1
    = Some [[CInt 1; CStr "Corn"; CInt (-5); CStr "WS1"; CStr "Station-A"];
            [CInt 1; CStr "Corn"; CInt (-5); CStr "WS1"; CStr "Station-B"];
            [CInt 2; CStr "XYZ"; CInt 10; CStr "WS2"; CNull];
            [CInt 3; CStr "Corn"; CInt (-3); CStr "WS3"; CNull]]
  ∧ length (rows example_df) = 3%nat.
Proof. repeat split; reflexivity. Qed.

Lemma weather_station_mapping_rows_witness :
  let out :=
    weather_station_mapping example_read_from_web_CSV example_keys_compatible
      (example_processor, example_world) in
  ∃ (d' : DataFrame) (i j : nat),
    df out.2.1 = Some d'
    ∧ positions (CStr "Field_ID") (columns (station_renamed example_df)) = [i]
    ∧ positions (CStr "Field_ID") (columns example_weather_df) = [j]
    ∧ (length (rows example_df) ≤ length (rows d'))%nat
    ∧ (NoDup ((λ rrow : list cell, rrow !! j) <$> rows example_weather_df) →
       length (rows d') = length (rows example_df))
    ∧ (∀ r, r ∈ rows example_df → ∃ r', r' ∈ rows d' ∧ r `prefix_of` r')
    ∧ (∀ r, r ∈ rows example_df →
         (∀ rrow, rrow ∈ rows example_weather_df → rrow !! j ≠ r !! i) →
         r ++ replicate (length (columns example_weather_df) - 1) CNull
         ∈ rows d')
    ∧ ∃ ext : list cell → list (list cell),
        rows d' = rows example_df ≫= (λ r, (λ cells, r ++ cells) <$> ext r)
        ∧ ∀ r, length (ext r)
               = Nat.max 1
                   (length (filter (λ rrow : list cell, rrow !! j = r !! i)
                              (rows example_weather_df))).
Proof.
  intros out.
  apply (weather_station_mapping_rows unit example_read_from_web_CSV
           example_keys_compatible example_processor out.2.1 example_world
           out.2.2 example_df example_weather_df);
    reflexivity.
Defined.

(** C2, as stated, fails: neither configured name is a column, and
    [rename_columns] returns with the table as it was. *)
Lemma rename_columns_absent_no_error :
  let p :=
    set_columns_to_rename (PDict [(CStr "Rainfall", CStr "Temperature")])
      example_processor in
  (CStr "Rainfall" ∉ columns example_df)
  ∧ (CStr "Temperature" ∉ columns example_df)
  ∧ rename_columns (p, example_world)
    = (Ok tt,
       (p, emit (CallLoggerInfo "Swapped columns: Rainfall with Temperature")
             example_world)).
Proof.
  repeat split; try reflexivity;
    apply (bool_decide_unpack _); by vm_compute.
Qed.

Lemma rename_columns_absent_names_ignored_witness :
  let p :=
    set_columns_to_rename (PDict [(CStr "Rainfall", CStr "Crop_type")])
      example_processor in
  ∃ (p' : Processor unit) (w' : World) (d' : DataFrame),
    rename_columns (p, example_world) = (Ok tt, (p', w'))
    ∧ df p' = Some d'
    ∧ rows d' = rows example_df
    ∧ length (columns d') = length (columns example_df)
    ∧ (∀ i c, columns example_df !! i = Some c →
         c ≠ CStr "Rainfall" → c ≠ CStr "Crop_type" →
         columns d' !! i = Some c)
    ∧ (CStr "Rainfall" ∉ columns example_df →
       CStr "Crop_type" ∉ columns example_df → d' = example_df).
Proof.
  apply (rename_columns_absent_names_ignored unit _ example_world example_df
           (CStr "Rainfall") (CStr "Crop_type") []);
    reflexivity.
Defined.

Lemma rename_columns_involution_witness :
  ∃ (p1 p2 : Processor unit) (w1 w2 : World),
    rename_columns (example_processor, example_world) = (Ok tt, (p1, w1))
    ∧ rename_columns (p1, w1) = (Ok tt, (p2, w2))
    ∧ df p2 = Some example_df.
Proof.
  apply (rename_columns_involution unit example_processor example_world
           example_df (CStr "Crop_type") (CStr "Elevation") []);
    [reflexivity | reflexivity | | ]; apply (bool_decide_unpack _); by vm_compute.
Defined.

Lemma rename_columns_swaps_names_witness :
  ∃ (temp_name : cell) (w' : World) (d' : DataFrame),
    (temp_name ∉ columns example_df)
    ∧ rename_columns (example_processor, example_world)
      = (Ok tt, (set_df (Some d') example_processor, w'))
    ∧ d' = rename (dict_display [(temp_name, CStr "Elevation")])
             (rename (dict_display [(CStr "Crop_type", temp_name);
                                    (CStr "Elevation", CStr "Crop_type")])
                example_df)
    ∧ rows d' = rows example_df
    ∧ length (columns d') = length (columns example_df)
    ∧ ∀ i c, columns example_df !! i = Some c →
        columns d' !! i
        = Some (if decide (c = CStr "Crop_type") then CStr "Elevation"
                else if decide (c = CStr "Elevation") then CStr "Crop_type"
                else c).
Proof.
  apply (rename_columns_swaps_names unit example_processor example_world
           example_df (CStr "Crop_type") (CStr "Elevation") []);
    [reflexivity | reflexivity | | ]; apply (bool_decide_unpack _); by vm_compute.
Defined.




Lemma init_missing_key_witness :
  ∃ k' : string,
    k' ∈ required_keys
    ∧ delete "sql_query" example_config !! k' = None
    ∧ __init__ unit (delete "sql_query" example_config) "INFO" example_world
      = (Raise (KeyError (CStr k')), example_world).
Proof.
  apply (init_missing_key unit (delete "sql_query" example_config) "INFO"
           example_world "sql_query");
    [apply (bool_decide_unpack _); by vm_compute | reflexivity].
Defined.

Lemma weather_station_mapping_missing_key_witness :
  ∃ s' : State unit,
    weather_station_mapping example_read_from_web_CSV example_keys_compatible
      (set_df (Some keyless_df) example_processor, example_world)
    = (Raise (KeyError (CStr "Field_ID")), s').
Proof.
  apply (weather_station_mapping_missing_key unit example_read_from_web_CSV
           example_keys_compatible) with (d := keyless_df)
                                         (wm := example_weather_df);
    [ intros url wm [= <-]; apply (bool_decide_unpack _); by vm_compute
    | reflexivity
    | reflexivity
    | left; apply (bool_decide_unpack _); by vm_compute ].
Defined.

(** * The further properties at concrete inputs *)

Lemma rename_columns_failure_witness :
  let p := set_columns_to_rename (PDict []) example_processor in
  (p, example_world) = (p, example_world)
  ∧ ((IndexError = IndexError ∧ columns_to_rename p = PDict [])
     ∨ (IndexError = AttributeError
        ∧ ((∃ c, columns_to_rename p = PCell c) ∨ df p = None))).
Proof.
  intros p.
  apply (rename_columns_failure unit p example_world IndexError
           (p, example_world)).
  reflexivity.
Defined.

Lemma rename_columns_labels_witness :
  ∃ w' : World,
    rename_columns (example_processor, example_world)
    = (Ok tt,
       (set_df (Some {| columns := if decide (CStr "Crop_type"
                                              = placeholder example_df)
                                   then columns example_df
                                   else swap_label (CStr "Crop_type")
                                          (CStr "Elevation")
                                          <$> columns example_df;
                        rows := rows example_df |}) example_processor, w')).
Proof.
  apply (rename_columns_labels unit example_processor example_world
           example_df (CStr "Crop_type") (CStr "Elevation") []);
    reflexivity.
Defined.

Lemma rename_columns_keeps_labels_distinct_witness :
  let out := rename_columns (example_processor, example_world) in
  ∃ d' : DataFrame,
    df out.2.1 = Some d'
    ∧ NoDup (columns d')
    ∧ length (columns d') = length (columns example_df)
    ∧ rows d' = rows example_df.
Proof.
  intros out.
  apply (rename_columns_keeps_labels_distinct unit example_processor out.2.1
           example_world out.2.2 example_df);
    [reflexivity | reflexivity | apply (bool_decide_unpack _); by vm_compute].
Defined.

Lemma apply_corrections_frame_witness :
  let out :=
    apply_corrections (CStr "Crop_type") (CStr "Elevation")
      (example_processor, example_world) in
  ∃ d' : DataFrame,
    df out.2.1 = Some d'
    ∧ columns d' = columns example_df
    ∧ length (rows d') = length (rows example_df)
    ∧ ∀ i r, rows example_df !! i = Some r →
        ∃ r' : list cell,
          rows d' !! i = Some r'
          ∧ length r' = length r
          ∧ ∀ j c, r !! j = Some c →
              columns example_df !! j ≠ Some (CStr "Elevation") →
              columns example_df !! j ≠ Some (CStr "Crop_type") →
              r' !! j = Some c.
Proof.
  intros out.
  apply (apply_corrections_frame unit example_processor out.2.1 example_world
           out.2.2 example_df (CStr "Crop_type") (CStr "Elevation"));
    reflexivity.
Defined.

Lemma apply_corrections_missing_column_witness :
  (CStr "Altitude" ∉ columns example_df →
   apply_corrections (CStr "Soil") (CStr "Altitude")
     (example_processor, example_world)
   = (Raise (KeyError (CStr "Altitude")), (example_processor, example_world)))
  ∧ (∀ s1,
       abs_step (CStr "Altitude") (example_processor, example_world)
       = (Ok tt, s1) →
       CStr "Soil" ∉ columns example_df →
       apply_corrections (CStr "Soil") (CStr "Altitude")
         (example_processor, example_world)
       = (Raise (KeyError (CStr "Soil")), s1)).
Proof.
  apply (apply_corrections_missing_column unit example_processor example_world
           example_df (CStr "Soil") (CStr "Altitude")).
  reflexivity.
Defined.

(** Without the categorical column, the exception leaves the elevations
    made positive. *)
Example apply_corrections_missing_column_ex :
  let out :=
    apply_corrections (CStr "Soil") (CStr "Elevation")
      (example_processor, example_world) in
  out.1 = Raise (KeyError (CStr "Soil"))
  ∧ rows <$> df out.2.1
    = Some [[CInt 1; CStr "Corn"; CInt 5; CStr "WS1"];
            [CInt 2; CStr "XYZ"; CInt 10; CStr "WS2"];
            [CInt 3; CStr "Corn"; CInt 3; CStr "WS3"]].
Proof. split; reflexivity. Qed.

Lemma apply_corrections_string_cell_witness :
  apply_corrections (CStr "Elevation") (CStr "Crop_type")
    (example_processor, example_world)
  = (Raise TypeError, (example_processor, example_world)).
Proof.
  apply (apply_corrections_string_cell unit example_processor example_world
           example_df (CStr "Elevation") (CStr "Crop_type") 1
           [CInt 1; CStr "Corn"; CInt (-5); CStr "WS1"] "Corn");
    [reflexivity | reflexivity | apply (bool_decide_unpack _); by vm_compute
    | reflexivity].
Defined.

Lemma ingest_sql_data_failure_witness :
  let p := set_df None example_processor in
  let out :=
    ingest_sql_data unreachable_create_db_engine example_query_data
      (p, example_world) in
  df out.2.1 = df p
  ∧ logger out.2.2 = logger example_world
  ∧ ((unreachable_create_db_engine (db_path p)
      = Raise (OtherError "ConnectionError")
      ∧ out.2.1 = p
      ∧ trace out.2.2
        = trace example_world ++ [CallCreateDbEngine (db_path p)])
     ∨ (∃ eng,
          unreachable_create_db_engine (db_path p) = Ok eng
          ∧ example_query_data eng (sql_query p)
            = Raise (OtherError "ConnectionError")
          ∧ out.2.1 = set_engine (Some eng) p
          ∧ trace out.2.2
            = trace example_world ++ [CallCreateDbEngine (db_path p);
                                      CallQueryData (sql_query p)])).
Proof.
  intros p out.
  apply (ingest_sql_data_failure unit unreachable_create_db_engine
           example_query_data p out.2.1 example_world out.2.2
           (OtherError "ConnectionError")).
  reflexivity.
Defined.

Lemma ingest_sql_data_success_witness :
  let p := set_df None example_processor in
  let out :=
    ingest_sql_data example_create_db_engine example_query_data
      (p, example_world) in
  ∃ eng : unit,
    example_create_db_engine (db_path p) = Ok eng
    ∧ example_query_data eng (sql_query p) = Ok example_df
    ∧ out.2.1 = set_df (Some example_df) (set_engine (Some eng) p)
    ∧ logger out.2.2 = logger example_world
    ∧ trace out.2.2
      = trace example_world ++ [CallCreateDbEngine (db_path p);
                                CallQueryData (sql_query p);
                                CallLoggerInfo "Successfully loaded data."].
Proof.
  intros p out.
  apply (ingest_sql_data_success unit example_create_db_engine
           example_query_data p out.2.1 example_world out.2.2 example_df).
  reflexivity.
Defined.


Lemma weather_station_mapping_failure_keeps_rename_witness :
  let p := set_df (Some keyless_df) example_processor in
  let out :=
    weather_station_mapping example_read_from_web_CSV example_keys_compatible
      (p, example_world) in
  out.2.1 = set_df (Some (station_renamed keyless_df)) p
  ∧ merge example_keys_compatible (station_renamed keyless_df)
      example_weather_df (CStr "Field_ID")
    = Raise (KeyError (CStr "Field_ID")).
Proof.
  intros p out.
  apply (weather_station_mapping_failure_keeps_rename unit
           example_read_from_web_CSV example_keys_compatible p out.2.1
           example_world out.2.2 keyless_df example_weather_df
           (KeyError (CStr "Field_ID")));
    reflexivity.
Defined.

Lemma weather_station_mapping_station_suffixes_witness :
  let out :=
    weather_station_mapping example_read_from_web_CSV example_keys_compatible
      (example_processor, example_world) in
  ∃ d' : DataFrame,
    df out.2.1 = Some d'
    ∧ CStr "Weather_station_x" ∈ columns d'
    ∧ CStr "Weather_station_y" ∈ columns d'
    ∧ CStr "Weather_station" ∉ columns d'.
Proof.
  intros out.
  apply (weather_station_mapping_station_suffixes unit
           example_read_from_web_CSV example_keys_compatible example_processor
           out.2.1 example_world out.2.2 example_df example_weather_df);
    [ reflexivity | reflexivity | reflexivity
    | left; apply (bool_decide_unpack _); by vm_compute
    | apply (bool_decide_unpack _); by vm_compute ].
Defined.

Lemma process_shape_witness :
  let p := set_df None example_processor in
  let out :=
    process example_create_db_engine mislabelled_query_data
      example_read_from_web_CSV example_keys_compatible
      (p, example_world) in
  ∃ (eng : unit) (d0 wm d' : DataFrame),
    example_create_db_engine (db_path p) = Ok eng
    ∧ mislabelled_query_data eng (sql_query p) = Ok d0
    ∧ example_read_from_web_CSV (weather_map_data p) = Ok wm
    ∧ df out.2.1 = Some d'
    ∧ (length (rows d0) ≤ length (rows d'))%nat
    ∧ length (columns d')
      = (length (columns d0) + (length (columns wm) - 1))%nat.
Proof.
  intros p out.
  apply (process_shape unit example_create_db_engine
           mislabelled_query_data example_read_from_web_CSV
           example_keys_compatible p out.2.1 example_world out.2.2).
  reflexivity.
Defined.
